(** * Temporal compositing and persistent-change detection
      (deforestation_assessment.js)

    A shallow embedding of the Earth Engine script
    [deforestation_assessment.js]: cloud masking, NDVI and the loaders,
    annual compositing, the baseline forest mask, per-year change
    detection, the two-year persistence filter, area statistics and the
    year-of-deforestation image.

    Pixel values are rationals ([Q]) standing for the script's floating
    point numbers.  A raster band is a function from pixels to optional
    values, [None] being a masked (invalid) pixel. *)

From Stdlib Require Import ZArith QArith List Bool Lia Lqa Sorted.
Import ListNotations.

Set Implicit Arguments.

(* ===================================================================== *)
(** ** Earth Engine primitives used by the script *)
(* ===================================================================== *)

Module EE.

(** A cell of the common analysis grid (row, column). *)
Definition Pixel := (nat * nat)%type.

Definition pixel_eqb (a b : Pixel) : bool :=
  Nat.eqb (fst a) (fst b) && Nat.eqb (snd a) (snd b).

(** One band of an [ee.Image]: [None] is a masked pixel. *)
Definition Band := Pixel -> option Q.

(** [ee.Geometry], seen through the grid: the cells it covers. *)
Definition Geometry := list Pixel.

Definition inside (g : Geometry) (p : Pixel) : bool :=
  existsb (pixel_eqb p) g.

(** [ee.Date]: calendar fields and the milliseconds elapsed in the day.
    The lexicographic order on the fields is the order of the
    corresponding epoch milliseconds. *)
Record Date := mkDate { dyear : Z; dmonth : Z; dday : Z; dmillis : Z }.

(** [ee.Date.fromYMD(y, m, d)]: midnight at the start of the day. *)
Definition fromYMD (y m d : Z) : Date := mkDate y m d 0.

Definition date_ltb (a b : Date) : bool :=
  (dyear a <? dyear b)%Z
  || ((dyear a =? dyear b)%Z
      && ((dmonth a <? dmonth b)%Z
          || ((dmonth a =? dmonth b)%Z
              && ((dday a <? dday b)%Z
                  || ((dday a =? dday b)%Z
                      && (dmillis a <? dmillis b)%Z))))).

Definition date_leb (a b : Date) : bool := negb (date_ltb b a).

(** A raw observation: the NDVI band of a cloud-masked scene together
    with its [system:time_start]. *)
Record Scene := mkScene { time_start : Date; ndvi : Band }.

(** A derived single-band image carrying the ['year'] property. *)
Record Image := mkImage { px : Band; year : Z }.

(** [collection.filterDate(start, end)]: [start] inclusive, [end]
    exclusive, on [system:time_start]. *)
Definition filterDate (c : list Scene) (startDate endDate : Date)
  : list Scene :=
  filter (fun s => date_leb startDate (time_start s)
                   && date_ltb (time_start s) endDate) c.

Definition Qltb (x y : Q) : bool := negb (Qle_bool y x).
Definition nonzero (x : Q) : bool := negb (Qeq_bool x 0).
Definition ofBool (b : bool) : Q := if b then 1 else 0.

(** [ee.Image(c)]: a constant, valid everywhere. *)
Definition constant (c : Q) : Band := fun _ => Some c.

(** [ee.Image()]: an empty, fully transparent image. *)
Definition emptyImage : Band := fun _ => None.

(** [image.mask(m)]: pixels where [m] is zero (or masked) are masked. *)
Definition mask (b m : Band) : Band :=
  fun p => match m p with
           | Some v => if nonzero v then b p else None
           | None => None
           end.

(** [image.clip(geometry)]. *)
Definition clip (b : Band) (g : Geometry) : Band :=
  fun p => if inside g p then b p else None.

(** Pixel-wise binary operator: masked when either input is masked. *)
Definition lift2 (f : Q -> Q -> Q) (a b : Band) : Band :=
  fun p => match a p, b p with
           | Some x, Some y => Some (f x y)
           | _, _ => None
           end.

(** [image.gt(t)], [image.lt(t)], [image.eq(c)] against a constant. *)
Definition gt (a : Band) (t : Q) : Band :=
  lift2 (fun x y => ofBool (Qltb y x)) a (constant t).
Definition lt (a : Band) (t : Q) : Band :=
  lift2 (fun x y => ofBool (Qltb x y)) a (constant t).
Definition eq (a : Band) (c : Q) : Band :=
  lift2 (fun x y => ofBool (Qeq_bool x y)) a (constant c).

(** [a.and(b)]: 1 where both values are non-zero, 0 otherwise. *)
Definition and (a b : Band) : Band :=
  lift2 (fun x y => ofBool (nonzero x && nonzero y)) a b.

(** [a.multiply(b)]. *)
Definition multiply (a b : Band) : Band := lift2 Qmult a b.

(** [image.unmask(v)]: masked pixels take the value [v] and become
    valid. *)
Definition unmask (a : Band) (v : Q) : Band :=
  fun p => match a p with
           | Some x => Some x
           | None => Some v
           end.

(** [image.selfMask()]: valid pixels holding zero become masked. *)
Definition selfMask (a : Band) : Band :=
  fun p => match a p with
           | Some x => if nonzero x then Some x else None
           | None => None
           end.

(** The unmasked values a list of bands holds at one pixel, in
    collection order. *)
Fixpoint validValues (bs : list Band) (p : Pixel) : list Q :=
  match bs with
  | [] => []
  | b :: rest =>
      match b p with
      | Some v => v :: validValues rest p
      | None => validValues rest p
      end
  end.

Fixpoint insertQ (x : Q) (l : list Q) : list Q :=
  match l with
  | [] => [x]
  | y :: rest => if Qle_bool x y then x :: l else y :: insertQ x rest
  end.

Fixpoint sortQ (l : list Q) : list Q :=
  match l with
  | [] => []
  | x :: rest => insertQ x (sortQ rest)
  end.

(** [ee.Reducer.median()] on a list of inputs: the middle value, or the
    mean of the two middle values. *)
Definition medianQ (l : list Q) : Q :=
  let s := sortQ l in
  let n := length s in
  if Nat.even n
  then (nth (n / 2 - 1) s 0 + nth (n / 2) s 0) / 2
  else nth (n / 2) s 0.

(** [collection.reduce(r)] / [collection.median()]: pixel-wise over the
    unmasked inputs; masked where no input is unmasked. *)
Definition reduce (r : list Q -> Q) (bs : list Band) : Band :=
  fun p => match validValues bs p with
           | [] => None
           | vs => Some (r vs)
           end.

Definition median (bs : list Band) : Band := reduce medianQ bs.

(** [collection.mosaic()]: images are composited in collection order,
    the last one on top; a pixel shows the value of the last image that
    is unmasked there. *)
Fixpoint mosaic (bs : list Band) : Band :=
  match bs with
  | [] => emptyImage
  | b :: rest =>
      fun p => match mosaic rest p with
               | Some v => Some v
               | None => b p
               end
  end.

(** [image.reduceRegion(ee.Reducer.sum(), geometry)]: the sum of the
    unmasked pixels of the region; a masked pixel adds nothing. *)
Definition contribution (a : Band) (p : Pixel) : Q :=
  match a p with
  | Some v => v
  | None => 0
  end.

Definition reduceRegionSum (a : Band) (g : Geometry) : Q :=
  fold_right Qplus 0 (map (contribution a) g).

(** An integer band, such as a quality band. *)
Definition IntBand := Pixel -> option Z.

(** [image.updateMask(m)] on one band: a pixel stays valid where it was
    valid and [m] is valid and non-zero; its value is kept. *)
Definition updateMask (A : Type) (a : Pixel -> option A) (m : Band)
  : Pixel -> option A :=
  fun p => match a p, m p with
           | Some v, Some w => if nonzero w then Some v else None
           | _, _ => None
           end.

(** [image.bitwiseAnd(c)] and [image.eq(c)] on an integer band. *)
Definition bitwiseAnd (a : IntBand) (c : Z) : IntBand :=
  fun p => option_map (fun x => Z.land x c) (a p).
Definition eqInt (a : IntBand) (c : Z) : Band :=
  fun p => option_map (fun x => ofBool (x =? c)%Z) (a p).

(** [image.normalizedDifference([a, b])]: [(a - b) / (a + b)]; a pixel
    where either band is negative is masked; a division by zero gives
    0. *)
Definition normalizedDifference (a b : Band) : Band :=
  fun p => match a p, b p with
           | Some x, Some y =>
               if Qltb x 0 || Qltb y 0 then None
               else Some ((x - y) / (x + y))
           | _, _ => None
           end.

(** Two geometries share a cell. *)
Definition intersects (f g : Geometry) : bool := existsb (inside g) f.

(** [ee.Reducer.min()] and [ee.Reducer.max()] on a list of numbers: no
    result on the empty list. *)
Definition reduceMin (l : list Z) : option Z :=
  match l with
  | [] => None
  | x :: rest => Some (fold_left Z.min rest x)
  end.
Definition reduceMax (l : list Z) : option Z :=
  match l with
  | [] => None
  | x :: rest => Some (fold_left Z.max rest x)
  end.

End EE.

Import EE.

(* ===================================================================== *)
(** ** The script *)
(* ===================================================================== *)

(** *** Loading the scenes *)

(** A surface-reflectance scene of the catalogue, with the bands the
    script reads, its [system:time_start] and its footprint. *)
Record RawScene := mkRawScene
  { acquired : Date; footprint : Geometry;
    B3 : Band; B4 : Band; B5 : Band; pixel_qa : IntBand }.

(** A scene with its added ['NDVI'] band. *)
Record NdviScene := mkNdviScene { bands : RawScene; NDVI : Band }.

Definition maskL457Clouds (image : RawScene) : RawScene :=
  let qa := pixel_qa image in
  let cloudShadowBitMask := Z.shiftl 1 3 in
  let cloudsBitMask := Z.shiftl 1 5 in
  let mask :=
    and (eqInt (bitwiseAnd qa cloudShadowBitMask) 0)
        (eqInt (bitwiseAnd qa cloudsBitMask) 0) in
  mkRawScene (acquired image) (footprint image)
    (updateMask (B3 image) mask) (updateMask (B4 image) mask)
    (updateMask (B5 image) mask) (updateMask (pixel_qa image) mask).

Definition maskL8Clouds (image : RawScene) : RawScene :=
  let qa := pixel_qa image in
  let cloudShadowBitMask := Z.shiftl 1 3 in
  let cloudsBitMask := Z.shiftl 1 5 in
  let mask :=
    and (eqInt (bitwiseAnd qa cloudShadowBitMask) 0)
        (eqInt (bitwiseAnd qa cloudsBitMask) 0) in
  mkRawScene (acquired image) (footprint image)
    (updateMask (B3 image) mask) (updateMask (B4 image) mask)
    (updateMask (B5 image) mask) (updateMask (pixel_qa image) mask).

Definition calculateL5L7Ndvi (image : RawScene) : NdviScene :=
  let ndvi := normalizedDifference (B4 image) (B3 image) in
  mkNdviScene image ndvi.

Definition calculateL8Ndvi (image : RawScene) : NdviScene :=
  let ndvi := normalizedDifference (B5 image) (B4 image) in
  mkNdviScene image ndvi.

(** [filterDate] and [filterBounds] on the catalogue. *)
Definition filterDateRaw (c : list RawScene) (startDate endDate : Date)
  : list RawScene :=
  filter (fun s => date_leb startDate (acquired s)
                   && date_ltb (acquired s) endDate) c.

Definition filterBounds (c : list RawScene) (geometry : Geometry)
  : list RawScene :=
  filter (fun s => intersects (footprint s) geometry) c.

(** The loaders, from the scenes of the catalogue collection. *)
Definition loadLandsat5 (catalogue : list RawScene) (geometry : Geometry)
  : list NdviScene :=
  map calculateL5L7Ndvi
    (map maskL457Clouds
       (filterBounds
          (filterDateRaw catalogue (fromYMD 1984 1 1) (fromYMD 2011 12 31))
          geometry)).

Definition loadLandsat7 (catalogue : list RawScene) (geometry : Geometry)
  : list NdviScene :=
  map calculateL5L7Ndvi
    (map maskL457Clouds
       (filterBounds
          (filterDateRaw catalogue (fromYMD 1999 1 1) (fromYMD 2020 12 31))
          geometry)).

Definition loadLandsat8 (catalogue : list RawScene) (geometry : Geometry)
  : list NdviScene :=
  map calculateL8Ndvi
    (map maskL8Clouds
       (filterBounds
          (filterDateRaw catalogue (fromYMD 2013 1 1) (fromYMD 2020 12 31))
          geometry)).

(** A loaded scene as the compositor reads it: [select('NDVI')] and
    [system:time_start]. *)
Definition selectNdvi (s : NdviScene) : Scene :=
  mkScene (acquired (bands s)) (NDVI s).

(** *** Annual composites *)

(** The body of the loop of [createAnnualMedianComposite] for one
    [year]. *)
Definition annualComposite (collection : list Scene) (aoi : Geometry)
  (year : Z) : Image :=
  let startDate := fromYMD year 1 1 in
  let endDate := fromYMD year 12 31 in
  let yearlyCollection := filterDate collection startDate endDate in
  let count := length yearlyCollection in
  if (0 <? count)%nat
  then mkImage (clip (median (map ndvi yearlyCollection)) aoi) year
  else mkImage (mask emptyImage (constant 0)) year.

(** [for (var year = startYear; year <= endYear; year++)], with the
    number of remaining iterations as the structural argument. *)
Fixpoint compositeLoop (collection : list Scene) (aoi : Geometry)
  (iterations : nat) (year : Z) (annualCompositesList : list Image)
  : list Image :=
  match iterations with
  | O => annualCompositesList
  | S k =>
      let medianImage := annualComposite collection aoi year in
      compositeLoop collection aoi k (year + 1)
        (annualCompositesList ++ [medianImage])
  end.

Definition createAnnualMedianComposite (collection : list Scene)
  (startYear endYear : Z) (aoi : Geometry) : list Image :=
  compositeLoop collection aoi (Z.to_nat (endYear - startYear + 1))
    startYear [].

(** *** Initial forest mask *)

(** The composites of the baseline period. *)
Definition baselineAnnualNdvi (annualL5Composites : list Image)
  (baselineStartYear baselineEndYear : Z) : list Image :=
  filter (fun i => (year i <=? baselineEndYear)%Z)
    (filter (fun i => (baselineStartYear <=? year i)%Z)
       annualL5Composites).

Definition baselineNdviComposite (annualL5Composites : list Image)
  (baselineStartYear baselineEndYear : Z) : Band :=
  let baseline :=
    baselineAnnualNdvi annualL5Composites baselineStartYear
      baselineEndYear in
  if (0 <? length baseline)%nat
  then median (map px baseline)
  else mask emptyImage (constant 0).

Definition initialForestMask (annualL5Composites : list Image)
  (baselineStartYear baselineEndYear : Z) (forestNdviThreshold : Q)
  : Band :=
  selfMask
    (gt (baselineNdviComposite annualL5Composites
           baselineStartYear baselineEndYear)
        forestNdviThreshold).

(** *** One composite per distinct year *)

(** [collection.sort('year')]. *)
Fixpoint insertByYear (i : Image) (l : list Image) : list Image :=
  match l with
  | [] => [i]
  | j :: rest =>
      if (year j <=? year i)%Z then j :: insertByYear i rest
      else i :: l
  end.

Definition sortByYear (l : list Image) : list Image :=
  fold_left (fun acc i => insertByYear i acc) l [].

(** [ee.List.distinct()]: the first occurrence of each element is
    kept. *)
Fixpoint distinct (l : list Z) : list Z :=
  match l with
  | [] => []
  | x :: rest => x :: filter (fun y => negb (y =? x)%Z) (distinct rest)
  end.

(** [ee.List.sort()] on numbers. *)
Fixpoint insertZ (x : Z) (l : list Z) : list Z :=
  match l with
  | [] => [x]
  | y :: rest => if (x <=? y)%Z then x :: l else y :: insertZ x rest
  end.

Fixpoint sortZ (l : list Z) : list Z :=
  match l with
  | [] => []
  | x :: rest => insertZ x (sortZ rest)
  end.

Definition allAnnualNdviComposites
  (annualL5Composites annualL7Composites annualL8Composites : list Image)
  : list Image :=
  sortByYear (annualL5Composites ++ annualL7Composites
              ++ annualL8Composites).

Definition distinctYears (allAnnual : list Image) : list Z :=
  sortZ (distinct (map year allAnnual)).

(** [ee.Filter.eq('year', y)]. *)
Definition hasYear (y : Z) (i : Image) : bool := (year i =? y)%Z.

Definition uniqueAnnualNdviComposites (allAnnual : list Image)
  : list Image :=
  map (fun y =>
         let yearComposites := filter (hasYear y) allAnnual in
         mkImage (median (map px yearComposites)) y)
      (distinctYears allAnnual).

(** *** Yearly deforestation *)

Definition detectDeforestation (currentNdviImage : Image)
  (initialForest : Band) (deforestThresh : Q) : Image :=
  let y := year currentNdviImage in
  let potentialDeforestation := lt (px currentNdviImage) deforestThresh in
  let deforestation := and (eq initialForest 1) potentialDeforestation in
  mkImage (selfMask deforestation) y.

Definition analysisComposites (unique : list Image) (baselineEndYear : Z)
  : list Image :=
  filter (fun i => (baselineEndYear <? year i)%Z) unique.

Definition yearlyDeforestation (unique : list Image)
  (baselineEndYear : Z) (initialForest : Band) (deforestThresh : Q)
  : list Image :=
  map (fun image => detectDeforestation image initialForest deforestThresh)
      (analysisComposites unique baselineEndYear).

(** *** Two-year persistence *)

Definition persistenceDuration : Z := 2.

(** The body of the persistence loop for the entries at [i] and
    [i + 1]. *)
Definition persistentDeforestation (entry_i entry_i_plus_1 : Image)
  : Image :=
  let img_Y := mkImage (unmask (px entry_i) 0) (year entry_i) in
  let img_Y_plus_1 :=
    mkImage (unmask (px entry_i_plus_1) 0) (year entry_i_plus_1) in
  let year_Y := year img_Y in
  let year_Y_plus_1 := year img_Y_plus_1 in
  let persistent :=
    if (year_Y_plus_1 - year_Y =? 1)%Z
    then and (px img_Y) (px img_Y_plus_1)
    else constant 0 in
  mkImage (selfMask persistent) year_Y.

(** [for (var i = 0; i < numDeforestationYears - (persistenceDuration - 1);
    i++)].  [ee.List.get] fails outside the list, hence the [option]. *)
Fixpoint persistenceLoop (deforestationList : list Image)
  (iterations i : nat) (refined : list Image) : option (list Image) :=
  match iterations with
  | O => Some refined
  | S k =>
      match nth_error deforestationList i,
            nth_error deforestationList (i + 1) with
      | Some img_Y, Some img_Y_plus_1 =>
          persistenceLoop deforestationList k (S i)
            (refined ++ [persistentDeforestation img_Y img_Y_plus_1])
      | _, _ => None
      end
  end.

Definition refinedDeforestationList (deforestationList : list Image)
  : option (list Image) :=
  let numDeforestationYears := Z.of_nat (length deforestationList) in
  persistenceLoop deforestationList
    (Z.to_nat (numDeforestationYears - (persistenceDuration - 1))) 0 [].

(** *** Deforested area *)

Section Area.

(** [ee.Image.pixelArea()]: the ground area of each cell, in square
    metres; valid everywhere. *)
Variable pixelArea : Pixel -> Q.

Definition pixelAreaImage : Band := fun p => Some (pixelArea p).

(** The [scale] argument names the resolution of the grid, which the
    embedding takes as given. *)
Definition calculateDeforestedArea (image : Band) (geometry : Geometry)
  : Q :=
  let areaImage := multiply image pixelAreaImage in
  let deforestedAreaSqMeters := reduceRegionSum areaImage geometry in
  let deforestedAreaSqKm := deforestedAreaSqMeters / 1000000 in
  deforestedAreaSqKm.

(** An image with its ['deforested_area_sqkm'] property. *)
Record AreaImage := mkAreaImage
  { image : Image; deforested_area_sqkm : Q }.

(** Every image of the script has exactly one band. *)
Definition bandCount (i : Image) : nat := 1.

Definition refinedDeforestationWithArea (refinedDeforestation : list Image)
  (aoi : Geometry) : list AreaImage :=
  map (fun image =>
         let area :=
           if (0 <? bandCount image)%nat
           then calculateDeforestedArea (px image) aoi
           else 0 in
         mkAreaImage image area)
      refinedDeforestation.

End Area.

(** *** Year of deforestation *)

(** The function mapped over the confirmed rasters: the raster is
    unmasked with 0, then multiplied by its year. *)
Definition yearImage (ai : AreaImage) : Band :=
  let y := inject_Z (year (image ai)) in
  multiply (unmask (px (image ai)) 0) (constant y).

Definition yearOfDeforestation (refinedWithArea : list AreaImage) : Band :=
  selfMask (mosaic (map yearImage refinedWithArea)).

(** *** Area lists and the year range *)

Definition yearsList (withArea : list AreaImage) : list Z :=
  map (fun ai => year (image ai)) withArea.


Definition minYear (years : list Z) : option Z := reduceMin years.
Definition maxYear (years : list Z) : option Z := reduceMax years.

(** [if (minYear && maxYear)]: both were retrieved and neither is 0. *)
Definition yearRangeRetrieved (years : list Z) : bool :=
  match minYear years, maxYear years with
  | Some lo, Some hi => negb (lo =? 0)%Z && negb (hi =? 0)%Z
  | _, _ => false
  end.

(** *** The script, end to end *)

Section Script.

(** The cloud-masked NDVI scenes of the three sensors over the area of
    interest ([loadLandsat5(aoi)], [loadLandsat7(aoi)],
    [loadLandsat8(aoi)]). *)
Variables landsat5 landsat7 landsat8 : list Scene.
Variable aoi : Geometry.

Definition annualL5Composites : list Image :=
  createAnnualMedianComposite landsat5 1984 2011 aoi.
Definition annualL7Composites : list Image :=
  createAnnualMedianComposite landsat7 1999 2020 aoi.
Definition annualL8Composites : list Image :=
  createAnnualMedianComposite landsat8 2013 2020 aoi.

Definition baselineStartYear : Z := 1984.
Definition baselineEndYear : Z := 1990.
Definition forestNdviThreshold : Q := 5 # 10.
Definition deforestationNdviThreshold : Q := 3 # 10.

Definition scriptForestMask : Band :=
  initialForestMask annualL5Composites baselineStartYear baselineEndYear
    forestNdviThreshold.

Definition scriptAllAnnual : list Image :=
  allAnnualNdviComposites annualL5Composites annualL7Composites
    annualL8Composites.

Definition scriptUnique : list Image :=
  uniqueAnnualNdviComposites scriptAllAnnual.

Definition deforestationList : list Image :=
  yearlyDeforestation scriptUnique baselineEndYear scriptForestMask
    deforestationNdviThreshold.

End Script.

(* ===================================================================== *)
(** ** Vocabulary of the properties *)
(* ===================================================================== *)

(** A band is valid-true at [p]: unmasked with a non-zero value. *)
Definition validTrue (b : Band) (p : Pixel) : bool :=
  match b p with
  | Some v => nonzero v
  | None => false
  end.

(** The earliest year tag among the images that are valid-true at [p]. *)
Fixpoint earliestYear (l : list Image) (p : Pixel) : option Z :=
  match l with
  | [] => None
  | i :: rest =>
      let r := earliestYear rest p in
      if validTrue (px i) p
      then match r with
           | Some y => Some (Z.min (year i) y)
           | None => Some (year i)
           end
      else r
  end.

(** A band holds the value 1 wherever it is valid. *)
Definition onlyOnes (b : Band) : Prop :=
  forall p, b p = None \/ b p = Some 1.

(** A band holds 0 or 1 wherever it is valid. *)
Definition isBinary (b : Band) : Prop :=
  forall p v, b p = Some v -> v == 0 \/ v == 1.

(** A band is masked everywhere. *)
Definition allInvalid (b : Band) : Prop := forall p, b p = None.

(** Orders and predicates used in the proofs. *)

Definition yearLe (a b : Image) : Prop := (year a <= year b)%Z.

(** The years [y, y + 1, ..., y + k - 1]. *)
Fixpoint yearsFrom (y : Z) (k : nat) : list Z :=
  match k with
  | O => []
  | S k' => y :: yearsFrom (y + 1) k'
  end.

(** The images the loop builds, by recursion on the list: one per pair of
    neighbouring entries. *)
Fixpoint adjacentPairs (l : list Image) : list Image :=
  match l with
  | a :: (b :: _) as rest => persistentDeforestation a b :: adjacentPairs rest
  | _ => []
  end.

(** A date of the calendar. *)
Definition wellFormed (d : Date) : Prop :=
  (1 <= dmonth d <= 12 /\ 1 <= dday d <= 31 /\ 0 <= dmillis d)%Z.

(** The quality band flags neither cloud shadow (bit 3) nor cloud
    (bit 5) at [p]. *)
Definition clearAt (qa : IntBand) (p : Pixel) : bool :=
  match qa p with
  | Some q => negb (Z.testbit q 3) && negb (Z.testbit q 5)
  | None => false
  end.

(** Every valid value of a band lies between [lo] and [hi]. *)
Definition bandWithin (lo hi : Q) (b : Band) : Prop :=
  forall p v, b p = Some v -> lo <= v <= hi.

(** Keeping the pixels where [keep] holds. *)
Definition keepWhere (A : Type) (keep : Pixel -> bool)
  (a : Pixel -> option A) : Pixel -> option A :=
  fun p => if keep p then a p else None.

(** The year tags of [insertByYear i l], from the year tags of [l]. *)
Fixpoint insertKey (x : Z) (l : list Z) : list Z :=
  match l with
  | [] => [x]
  | j :: rest => if (j <=? x)%Z then j :: insertKey x rest else x :: l
  end.

(** The ground area of the valid-true cells of a region. *)
Definition coveredArea (pixelArea : Pixel -> Q) (b : Band)
  (region : Geometry) : Q :=
  fold_right Qplus 0
    (map (fun p => if validTrue b p then pixelArea p else 0) region).

(** The ground area of a region. *)
Definition regionArea (pixelArea : Pixel -> Q) (region : Geometry) : Q :=
  fold_right Qplus 0 (map pixelArea region).

(* ===================================================================== *)
(** ** The contracts, as worded *)
(* ===================================================================== *)

(** A scene acquired in calendar year [y], from January 1 to December 31
    inclusive. *)
Definition inCalendarYear (y : Z) (s : Scene) : bool :=
  (dyear (time_start s) =? y)%Z.

(** The composite of [y] as the compositor contract words it: the median
    of the scenes of the calendar year, or the masked sentinel. *)
Definition calendarYearComposite (collection : list Scene)
  (aoi : Geometry) (y : Z) : Image :=
  let yearlyCollection := filter (inCalendarYear y) collection in
  if (0 <? length yearlyCollection)%nat
  then mkImage (clip (median (map ndvi yearlyCollection)) aoi) y
  else mkImage (mask emptyImage (constant 0)) y.

(** The area of a binary raster as the area contract words it: each valid
    cell of the region contributes its value times its ground area, an
    invalid cell contributes nothing; the total is in the unit of the
    ground-area raster. *)
Definition nativeUnitArea (pixelArea : Pixel -> Q) (b : Band)
  (region : Geometry) : Q :=
  fold_right Qplus 0
    (map (fun p => match b p with
                   | Some v => v * pixelArea p
                   | None => 0
                   end) region).

(** [mosaic] as the comment next to [yearOfDeforestation] reads it: the
    first image that is unmasked at a pixel gives its value. *)
Definition mosaicFirstOnTop (bs : list Band) : Band := mosaic (rev bs).

Definition yearOfDeforestationFirstOnTop (refinedWithArea : list AreaImage)
  : Band :=
  selfMask (mosaicFirstOnTop (map yearImage refinedWithArea)).

(* ===================================================================== *)
(** ** Concrete inputs *)
(* ===================================================================== *)

(** A band that is valid at one cell only. *)
Definition onePixel (q : Pixel) (v : Q) : Band :=
  fun p => if pixel_eqb p q then Some v else None.

(** A band that is valid, with one value, at the listed cells only. *)
Definition onCells (cells : list Pixel) (v : Q) : Band :=
  fun p => if inside cells p then Some v else None.

(** The cells of a 5 x 5 grid. *)
Definition grid5x5 : Geometry :=
  flat_map (fun r => map (fun c => (r, c)) (seq 0 5)) (seq 0 5).

(** A scene acquired on 31 December 1990 at 10:00, valid at cell
    (0, 0) with NDVI 0.8. *)
Definition sceneOfDecember31 : Scene :=
  mkScene (mkDate 1990 12 31 36000000) (onePixel (0, 0)%nat (8 # 10)).

(** Three candidate rasters over a 5 x 5 grid: cell (2, 2) is a
    candidate in 1991 and 1992 and has recovered in 1993. *)
Definition candidates1991to1993 : list Image :=
  [ mkImage (onePixel (2, 2)%nat 1) 1991;
    mkImage (onePixel (2, 2)%nat 1) 1992;
    mkImage emptyImage 1993 ].

(** The confirmed rasters of these candidates. *)
Definition confirmed1991to1992 : list Image :=
  adjacentPairs candidates1991to1993.

(** Three candidate rasters: cell (1, 1) is a candidate in 1991 and
    1992, cell (2, 2) in 1992 and 1993. *)
Definition candidatesTwoCells : list Image :=
  [ mkImage (onCells [(1, 1)%nat] 1) 1991;
    mkImage (onCells [(1, 1)%nat; (2, 2)%nat] 1) 1992;
    mkImage (onCells [(2, 2)%nat] 1) 1993 ].

(** The confirmed rasters of these candidates: cell (1, 1) in 1991, cell
    (2, 2) in 1992. *)
Definition confirmedTwoCells : list Image :=
  adjacentPairs candidatesTwoCells.

(** A baseline mask that is forest at cell (2, 2) only, and a composite
    of 1991 holding NDVI 0.2 everywhere. *)
Definition forestAtCentre : Band := onePixel (2, 2)%nat 1.
Definition composite1991 : Image := mkImage (constant (2 # 10)) 1991.

(** One clear scene in 1991 and one fully clouded scene in 1992. *)
Definition clearScene1991 : Scene :=
  mkScene (mkDate 1991 6 15 0) (constant (2 # 10)).
Definition cloudedScene1992 : Scene :=
  mkScene (mkDate 1992 6 15 0) emptyImage.

(** The sentinel of a year without data, and its area. *)
Definition sentinel1991 : Image :=
  mkImage (mask emptyImage (constant 0)) 1991.

(** A Landsat 5 scene of June 1990 over the 5 x 5 grid: red 0.1, near
    infrared 0.5; cell (0, 0) is flagged as cloud (bit 5), the other
    cells are clear (value 66). *)
Definition rawScene1990 : RawScene :=
  mkRawScene (mkDate 1990 6 15 0) grid5x5
    (constant (1 # 10)) (constant (5 # 10)) (constant (2 # 10))
    (fun p => if pixel_eqb p (0, 0)%nat then Some 98%Z else Some 66%Z).

(** Case analysis on the integer comparisons of the goal. *)
Ltac bool_cases :=
  repeat match goal with
         | |- context [(?a <? ?b)%Z] => destruct (Z.ltb_spec a b)
         | |- context [(?a =? ?b)%Z] => destruct (Z.eqb_spec a b)
         end.

(* ===================================================================== *)
(** ** Facts about the primitives *)
(* ===================================================================== *)

Lemma nonzero_ofBool (b : bool) : nonzero (ofBool b) = b.
Proof. destruct b; reflexivity. Qed.

Lemma nonzero_true_iff (x : Q) : nonzero x = true <-> ~ x == 0.
Proof.
  unfold nonzero. rewrite negb_true_iff. split.
  - intros H E. apply Qeq_bool_iff in E. congruence.
  - intros H. destruct (Qeq_bool x 0) eqn:E; [|reflexivity].
    apply Qeq_bool_iff in E. contradiction.
Qed.

Lemma nonzero_false_iff (x : Q) : nonzero x = false <-> x == 0.
Proof.
  unfold nonzero. rewrite negb_false_iff. apply Qeq_bool_iff.
Qed.

Lemma Qltb_lt (x y : Q) : Qltb x y = true <-> x < y.
Proof.
  unfold Qltb. rewrite negb_true_iff. split.
  - intros H. apply Qnot_le_lt. intros L.
    apply Qle_bool_iff in L. congruence.
  - intros H. destruct (Qle_bool y x) eqn:E; [|reflexivity].
    apply Qle_bool_iff in E. exfalso. exact (Qlt_not_le _ _ H E).
Qed.

Lemma selfMask_Some (a : Band) (p : Pixel) (v : Q) :
  selfMask a p = Some v <-> a p = Some v /\ nonzero v = true.
Proof.
  unfold selfMask. destruct (a p) as [x|].
  - destruct (nonzero x) eqn:E; split.
    + intros H; inversion H; subst; auto.
    + intros [H _]; exact H.
    + discriminate.
    + intros [H N]; inversion H; subst; congruence.
  - split; [discriminate | intros [H _]; discriminate].
Qed.

Lemma selfMask_None (a : Band) (p : Pixel) :
  selfMask a p = None <-> validTrue a p = false.
Proof.
  unfold selfMask, validTrue. destruct (a p) as [x|].
  - destruct (nonzero x); split; congruence.
  - split; reflexivity.
Qed.

Lemma validTrue_selfMask (a : Band) (p : Pixel) :
  validTrue (selfMask a) p = validTrue a p.
Proof.
  unfold validTrue, selfMask. destruct (a p) as [x|]; [|reflexivity].
  destruct (nonzero x) eqn:E; [exact E | reflexivity].
Qed.

(** Self-masking a 0/1-valued band leaves the value 1 at the valid
    pixels. *)
Lemma selfMask_ofBool (f : Pixel -> option bool) :
  onlyOnes (selfMask (fun p => option_map ofBool (f p))).
Proof.
  intros p. unfold selfMask. destruct (f p) as [[|]|]; simpl; auto.
Qed.

Lemma onlyOnes_ext (a b : Band) :
  (forall p, a p = b p) -> onlyOnes a -> onlyOnes b.
Proof. intros E H p. rewrite <- E. apply H. Qed.

Lemma onlyOnes_validTrue (b : Band) (p : Pixel) :
  onlyOnes b -> (validTrue b p = true <-> b p = Some 1).
Proof.
  intros H. unfold validTrue. destruct (H p) as [E|E]; rewrite E.
  - split; discriminate.
  - split; reflexivity.
Qed.

Lemma lift2_ofBool (g : Q -> Q -> bool) (a b : Band) (p : Pixel) :
  lift2 (fun x y => ofBool (g x y)) a b p
  = option_map ofBool
      (match a p, b p with
       | Some x, Some y => Some (g x y)
       | _, _ => None
       end).
Proof. unfold lift2. destruct (a p), (b p); reflexivity. Qed.

Lemma validValues_allInvalid (bs : list Band) (p : Pixel) :
  Forall (fun b => b p = None) bs -> validValues bs p = [].
Proof.
  induction 1 as [|b rest Hb _ IH]; simpl; [reflexivity|].
  rewrite Hb. exact IH.
Qed.

Lemma median_allInvalid (bs : list Band) (p : Pixel) :
  Forall (fun b => b p = None) bs -> median bs p = None.
Proof.
  intros H. unfold median, reduce.
  rewrite (validValues_allInvalid H). reflexivity.
Qed.

(* ===================================================================== *)
(** ** Binary rasters *)
(* ===================================================================== *)

Lemma initialForestMask_onlyOnes (l : list Image) (s e : Z) (t : Q) :
  onlyOnes (initialForestMask l s e t).
Proof.
  unfold initialForestMask, gt.
  eapply onlyOnes_ext; [|apply selfMask_ofBool].
  intros p. unfold selfMask. rewrite lift2_ofBool. reflexivity.
Qed.

Lemma detectDeforestation_onlyOnes (c : Image) (m : Band) (t : Q) :
  onlyOnes (px (detectDeforestation c m t)).
Proof.
  unfold detectDeforestation, and. simpl.
  eapply onlyOnes_ext; [|apply selfMask_ofBool].
  intros p. unfold selfMask. rewrite lift2_ofBool. reflexivity.
Qed.

Lemma persistentDeforestation_onlyOnes (a b : Image) :
  onlyOnes (px (persistentDeforestation a b)).
Proof.
  unfold persistentDeforestation. simpl.
  destruct (year b - year a =? 1)%Z.
  - unfold and. eapply onlyOnes_ext; [|apply selfMask_ofBool].
    intros p. unfold selfMask. rewrite lift2_ofBool. reflexivity.
  - intros p. left. reflexivity.
Qed.

(** Where the persistence image of a pair is valid-true. *)
Lemma persistentDeforestation_validTrue (a b : Image) (p : Pixel) :
  validTrue (px (persistentDeforestation a b)) p
  = (year b - year a =? 1)%Z
    && (validTrue (px a) p && validTrue (px b) p).
Proof.
  unfold persistentDeforestation. simpl. rewrite validTrue_selfMask.
  destruct (year b - year a =? 1)%Z; simpl; [|reflexivity].
  unfold validTrue, and, lift2, unmask.
  destruct (px a p) as [x|], (px b p) as [y|];
    rewrite nonzero_ofBool; reflexivity.
Qed.

Lemma persistentDeforestation_year (a b : Image) :
  year (persistentDeforestation a b) = year a.
Proof. reflexivity. Qed.

(* ===================================================================== *)
(** ** The persistence loop *)
(* ===================================================================== *)

Lemma adjacentPairs_short (l : list Image) :
  (length l <= 1)%nat -> adjacentPairs l = [].
Proof.
  destruct l as [|a [|b rest]]; simpl; intros H; try reflexivity. lia.
Qed.

Lemma skipn_nth_error (A : Type) (i : nat) :
  forall (l : list A) (a : A),
    nth_error l i = Some a -> skipn i l = a :: skipn (S i) l.
Proof.
  induction i as [|i IH]; intros [|x l] a H; simpl in H; try discriminate.
  - inversion H. reflexivity.
  - simpl. rewrite (IH l a H). reflexivity.
Qed.

Lemma nth_error_in_range (A : Type) (l : list A) (i : nat) :
  (i < length l)%nat -> exists a, nth_error l i = Some a.
Proof.
  intros H. destruct (nth_error l i) as [a|] eqn:E; [eauto|].
  apply nth_error_None in E. lia.
Qed.

Lemma persistenceLoop_adjacentPairs (l : list Image) (k : nat) :
  forall (i : nat) (acc : list Image),
    k = (length l - (i + 1))%nat ->
    persistenceLoop l k i acc = Some (acc ++ adjacentPairs (skipn i l)).
Proof.
  induction k as [|k IH]; intros i acc Hk; simpl.
  - rewrite adjacentPairs_short; [rewrite app_nil_r; reflexivity|].
    rewrite length_skipn. lia.
  - destruct (@nth_error_in_range _ l i) as [a Ha]; [lia|].
    destruct (@nth_error_in_range _ l (i + 1)) as [b Hb]; [lia|].
    rewrite Ha, Hb. rewrite IH by lia.
    rewrite (skipn_nth_error _ _ Ha).
    replace (i + 1)%nat with (S i) in Hb by lia.
    rewrite (skipn_nth_error _ _ Hb). simpl.
    rewrite <- app_assoc. reflexivity.
Qed.

(** The loop never reads outside the list, and its result is the list of
    the images of the neighbouring pairs. *)
Lemma refinedDeforestationList_total (l : list Image) :
  refinedDeforestationList l = Some (adjacentPairs l).
Proof.
  unfold refinedDeforestationList, persistenceDuration.
  rewrite persistenceLoop_adjacentPairs; [reflexivity|]. lia.
Qed.

Lemma adjacentPairs_nth_error (l : list Image) :
  forall (i : nat) (r : Image),
    nth_error (adjacentPairs l) i = Some r
    <-> exists a b, nth_error l i = Some a /\ nth_error l (S i) = Some b
                    /\ r = persistentDeforestation a b.
Proof.
  induction l as [|a l IH]; intros i r.
  - simpl. destruct i; simpl; split; try discriminate;
      intros (x & y & H & _); discriminate.
  - destruct l as [|b rest].
    + simpl. destruct i as [|i]; simpl; split; try discriminate.
      * intros (x & y & _ & H & _); discriminate.
      * intros (x & y & H & _); destruct i; discriminate.
    + change (adjacentPairs (a :: b :: rest))
        with (persistentDeforestation a b :: adjacentPairs (b :: rest)).
      destruct i as [|i].
      * simpl. split.
        -- intros H; inversion H. exists a, b. auto.
        -- intros (x & y & Hx & Hy & ->). inversion Hx; inversion Hy.
           reflexivity.
      * change (nth_error (persistentDeforestation a b
                           :: adjacentPairs (b :: rest)) (S i))
          with (nth_error (adjacentPairs (b :: rest)) i).
        rewrite IH. reflexivity.
Qed.

Lemma adjacentPairs_length (l : list Image) :
  length (adjacentPairs l) = (length l - 1)%nat.
Proof.
  induction l as [|a [|b rest] IH]; try reflexivity.
  change (adjacentPairs (a :: b :: rest))
    with (persistentDeforestation a b :: adjacentPairs (b :: rest)).
  simpl length in *. rewrite IH. lia.
Qed.

(* ===================================================================== *)
(** ** Persistence filter *)
(* ===================================================================== *)

(** C2.  For every sequence of candidate-change rasters (in particular
    one with strictly increasing year tags) the persistence loop returns
    one image per pair of neighbouring entries.  Some returned image
    tagged [Y] is valid-true at a pixel exactly when two neighbouring
    entries are tagged [Y] and [Y + 1] and both are valid-true there.
    When the tags of two neighbouring entries do not differ by exactly
    one, the image of that pair is masked everywhere. *)
Theorem persistence_filter_confirms_consecutive_years
  (candidates : list Image) :
  exists refined,
    refinedDeforestationList candidates = Some refined
    /\ length refined = (length candidates - 1)%nat
    /\ (forall (Y : Z) (p : Pixel),
          (exists r, In r refined /\ year r = Y
                     /\ validTrue (px r) p = true)
          <-> (exists i a b,
                  nth_error candidates i = Some a
                  /\ nth_error candidates (S i) = Some b
                  /\ year a = Y /\ year b = (Y + 1)%Z
                  /\ validTrue (px a) p = true
                  /\ validTrue (px b) p = true))
    /\ (forall i a b,
          nth_error candidates i = Some a ->
          nth_error candidates (S i) = Some b ->
          (year b - year a)%Z <> 1%Z ->
          exists r, nth_error refined i = Some r
                    /\ year r = year a /\ allInvalid (px r)).
Proof.
  exists (adjacentPairs candidates).
  split; [apply refinedDeforestationList_total|].
  split; [apply adjacentPairs_length|].
  split.
  - intros Y p. split.
    + intros (r & Hin & Hy & Hv).
      apply In_nth_error in Hin. destruct Hin as [i Hi].
      apply adjacentPairs_nth_error in Hi.
      destruct Hi as (a & b & Ha & Hb & ->).
      rewrite persistentDeforestation_validTrue in Hv.
      apply andb_true_iff in Hv. destruct Hv as [Hd Hv].
      apply andb_true_iff in Hv. destruct Hv as [Hva Hvb].
      apply Z.eqb_eq in Hd. rewrite persistentDeforestation_year in Hy.
      exists i, a, b. repeat split; auto. lia.
    + intros (i & a & b & Ha & Hb & Hya & Hyb & Hva & Hvb).
      exists (persistentDeforestation a b). split; [|split].
      * apply nth_error_In with (n := i).
        apply adjacentPairs_nth_error. exists a, b. auto.
      * rewrite persistentDeforestation_year. exact Hya.
      * rewrite persistentDeforestation_validTrue, Hva, Hvb.
        replace (year b - year a)%Z with 1%Z by lia. reflexivity.
  - intros i a b Ha Hb Hgap.
    exists (persistentDeforestation a b). split; [|split].
    + apply adjacentPairs_nth_error. exists a, b. auto.
    + apply persistentDeforestation_year.
    + intros p. unfold persistentDeforestation. simpl.
      apply Z.eqb_neq in Hgap. rewrite Hgap. reflexivity.
Qed.

(** C10.  The baseline forest mask, every per-year candidate raster and
    every confirmed raster hold the value 1 at each valid pixel: a false
    pixel is a masked pixel, never a stored 0. *)
Theorem binary_rasters_hold_one_where_valid
  (annualL5Composites unique candidates : list Image)
  (baselineStartYear baselineEndYear : Z)
  (forestNdviThreshold deforestThresh : Q) :
  let forest := initialForestMask annualL5Composites baselineStartYear
                  baselineEndYear forestNdviThreshold in
  onlyOnes forest
  /\ Forall (fun i => onlyOnes (px i))
       (yearlyDeforestation unique baselineEndYear forest deforestThresh)
  /\ exists refined,
       refinedDeforestationList candidates = Some refined
       /\ Forall (fun i => onlyOnes (px i)) refined.
Proof.
  intros forest. split; [apply initialForestMask_onlyOnes|]. split.
  - unfold yearlyDeforestation. apply Forall_map. apply Forall_forall.
    intros c _. apply detectDeforestation_onlyOnes.
  - exists (adjacentPairs candidates).
    split; [apply refinedDeforestationList_total|].
    apply Forall_forall. intros r Hin.
    apply In_nth_error in Hin. destruct Hin as [i Hi].
    apply adjacentPairs_nth_error in Hi.
    destruct Hi as (a & b & _ & _ & ->).
    apply persistentDeforestation_onlyOnes.
Qed.

(* ===================================================================== *)
(** ** Change detector *)
(* ===================================================================== *)

Lemma detectDeforestation_validTrue (c : Image) (m : Band) (t : Q)
  (p : Pixel) :
  validTrue (px (detectDeforestation c m t)) p
  = match m p, px c p with
    | Some x, Some v => Qeq_bool x 1 && Qltb v t
    | _, _ => false
    end.
Proof.
  unfold detectDeforestation. simpl. rewrite validTrue_selfMask.
  unfold validTrue, and, eq, lt, lift2, constant.
  destruct (m p) as [x|], (px c p) as [v|]; try reflexivity.
  rewrite !nonzero_ofBool. reflexivity.
Qed.

Lemma isBinary_nonzero (m : Band) (p : Pixel) (x : Q) :
  isBinary m -> m p = Some x -> nonzero x = Qeq_bool x 1.
Proof.
  intros Hm Hx. destruct (Hm p x Hx) as [E|E].
  - rewrite (proj2 (nonzero_false_iff x) E).
    destruct (Qeq_bool x 1) eqn:E1; [|reflexivity].
    apply Qeq_bool_iff in E1. rewrite E in E1. discriminate.
  - rewrite (proj2 (Qeq_bool_iff x 1) E).
    apply nonzero_true_iff. rewrite E. discriminate.
Qed.

(** C4.  With a binary baseline mask, the detector output is valid-true
    at a pixel exactly when the mask is valid-true there and the
    composite holds a value strictly below the threshold; where the mask
    is not valid-true the output is masked, whatever the composite. *)
Theorem detectDeforestation_true_iff_forest_and_below
  (currentNdviImage : Image) (initialForest : Band) (deforestThresh : Q)
  (Hbinary : isBinary initialForest) (p : Pixel) :
  (validTrue (px (detectDeforestation currentNdviImage initialForest
                    deforestThresh)) p = true
   <-> validTrue initialForest p = true
       /\ exists v, px currentNdviImage p = Some v /\ v < deforestThresh)
  /\ (validTrue initialForest p = false ->
      px (detectDeforestation currentNdviImage initialForest
            deforestThresh) p = None).
Proof.
  split.
  - rewrite detectDeforestation_validTrue. unfold validTrue.
    destruct (initialForest p) as [x|] eqn:Hx.
    + rewrite (isBinary_nonzero _ Hbinary Hx).
      destruct (px currentNdviImage p) as [v|].
      * rewrite andb_true_iff, Qltb_lt. split.
        -- intros [H1 H2]. split; [exact H1|]. exists v. auto.
        -- intros [H1 (w & Hw & Hlt)]. inversion Hw; subst. auto.
      * split; [discriminate|]. intros [_ (w & Hw & _)]. discriminate.
    + split; [discriminate|]. intros [H _]. discriminate.
  - intros Hf.
    change (px (detectDeforestation currentNdviImage initialForest
                  deforestThresh) p)
      with (selfMask (and (eq initialForest 1)
                        (lt (px currentNdviImage) deforestThresh)) p).
    apply selfMask_None.
    rewrite <- validTrue_selfMask.
    change (validTrue (px (detectDeforestation currentNdviImage
                             initialForest deforestThresh)) p = false).
    rewrite detectDeforestation_validTrue. unfold validTrue in Hf.
    destruct (initialForest p) as [x|] eqn:Hx; [|reflexivity].
    rewrite (isBinary_nonzero _ Hbinary Hx) in Hf. rewrite Hf.
    destruct (px currentNdviImage p); reflexivity.
Qed.

(* ===================================================================== *)
(** ** Baseline forest mask *)
(* ===================================================================== *)

Lemma baselineNdviComposite_median (l : list Image) (s e : Z)
  (p : Pixel) :
  baselineNdviComposite l s e p
  = median (map px (baselineAnnualNdvi l s e)) p.
Proof.
  unfold baselineNdviComposite. fold (baselineAnnualNdvi l s e).
  destruct (baselineAnnualNdvi l s e) as [|i rest]; reflexivity.
Qed.

Lemma baselineAnnualNdvi_In (l : list Image) (s e : Z) (i : Image) :
  In i (baselineAnnualNdvi l s e)
  <-> In i l /\ (s <= year i <= e)%Z.
Proof.
  unfold baselineAnnualNdvi. rewrite !filter_In, Z.leb_le, Z.leb_le.
  tauto.
Qed.

(** C6.  The baseline mask is valid-true (value 1) exactly at the pixels
    where the median of the baseline-period composites is valid and
    strictly above the threshold, and masked at every other pixel.  When
    no baseline composite holds valid data (in particular when there is
    no baseline composite at all) the mask is masked everywhere. *)
Theorem initialForestMask_above_threshold_or_invalid
  (annualL5Composites : list Image) (baselineStartYear baselineEndYear : Z)
  (forestNdviThreshold : Q) :
  let baseline := baselineAnnualNdvi annualL5Composites
                    baselineStartYear baselineEndYear in
  let forest := initialForestMask annualL5Composites baselineStartYear
                  baselineEndYear forestNdviThreshold in
  (forall p,
      forest p = Some 1
      <-> exists v, median (map px baseline) p = Some v
                    /\ forestNdviThreshold < v)
  /\ (forall p,
         forest p = None
         <-> ~ exists v, median (map px baseline) p = Some v
                         /\ forestNdviThreshold < v)
  /\ (Forall (fun i => allInvalid (px i)) baseline -> allInvalid forest).
Proof.
  intros baseline forest.
  assert (Hchar : forall p,
             forest p = Some 1
             <-> exists v, median (map px baseline) p = Some v
                           /\ forestNdviThreshold < v).
  { intros p. unfold forest, initialForestMask.
    unfold selfMask, gt, lift2, constant.
    rewrite baselineNdviComposite_median. fold baseline.
    destruct (median (map px baseline) p) as [v|].
    - rewrite nonzero_ofBool.
      destruct (Qltb forestNdviThreshold v) eqn:E.
      + split; [|reflexivity]. intros _. exists v. split; [reflexivity|].
        apply Qltb_lt. exact E.
      + split; [discriminate|]. intros (w & Hw & Hlt).
        inversion Hw; subst. apply Qltb_lt in Hlt. congruence.
    - split; [discriminate|]. intros (w & Hw & _). discriminate. }
  split; [exact Hchar|]. split.
  - intros p. rewrite <- Hchar.
    destruct (initialForestMask_onlyOnes annualL5Composites
                baselineStartYear baselineEndYear forestNdviThreshold p)
      as [E|E]; fold forest in E; rewrite E; split;
      congruence.
  - intros Hall p.
    destruct (initialForestMask_onlyOnes annualL5Composites
                baselineStartYear baselineEndYear forestNdviThreshold p)
      as [E|E]; fold forest in E; [exact E|].
    apply Hchar in E. destruct E as (v & Hv & _).
    rewrite median_allInvalid in Hv; [discriminate|].
    apply Forall_map. eapply Forall_impl; [|exact Hall].
    intros i Hi. apply Hi.
Qed.

(* ===================================================================== *)
(** ** Facts about the compositing loop *)
(* ===================================================================== *)

Lemma compositeLoop_map (collection : list Scene) (aoi : Geometry)
  (k : nat) :
  forall (y : Z) (acc : list Image),
    compositeLoop collection aoi k y acc
    = acc ++ map (annualComposite collection aoi) (yearsFrom y k).
Proof.
  induction k as [|k IH]; intros y acc; simpl.
  - rewrite app_nil_r. reflexivity.
  - rewrite IH, <- app_assoc. reflexivity.
Qed.

Lemma createAnnualMedianComposite_map (collection : list Scene)
  (startYear endYear : Z) (aoi : Geometry) :
  createAnnualMedianComposite collection startYear endYear aoi
  = map (annualComposite collection aoi)
      (yearsFrom startYear (Z.to_nat (endYear - startYear + 1))).
Proof.
  unfold createAnnualMedianComposite. rewrite compositeLoop_map.
  reflexivity.
Qed.

Lemma annualComposite_year (collection : list Scene) (aoi : Geometry)
  (y : Z) :
  year (annualComposite collection aoi y) = y.
Proof.
  unfold annualComposite.
  destruct (0 <? length _)%nat; reflexivity.
Qed.

Lemma createAnnualMedianComposite_In (collection : list Scene)
  (s e : Z) (aoi : Geometry) (i : Image) :
  In i (createAnnualMedianComposite collection s e aoi) ->
  i = annualComposite collection aoi (year i).
Proof.
  unfold createAnnualMedianComposite. rewrite compositeLoop_map. simpl.
  intros H. apply in_map_iff in H. destruct H as (y & <- & _).
  rewrite annualComposite_year. reflexivity.
Qed.

Lemma date_ltb_year (a b : Date) :
  date_ltb a b = true -> (dyear a <= dyear b)%Z.
Proof.
  unfold date_ltb. intros H. apply orb_true_iff in H.
  destruct H as [H|H].
  - apply Z.ltb_lt in H. lia.
  - apply andb_true_iff in H. destruct H as [H _].
    apply Z.eqb_eq in H. lia.
Qed.

Lemma date_leb_year (a b : Date) :
  date_leb a b = true -> (dyear a <= dyear b)%Z.
Proof.
  unfold date_leb, date_ltb. intros H. apply negb_true_iff in H.
  apply orb_false_iff in H. destruct H as [H _].
  apply Z.ltb_ge in H. exact H.
Qed.

(** A scene the compositor selects for [y] was acquired in year [y]. *)
Lemma filterDate_year (collection : list Scene) (y : Z) (s : Scene) :
  In s (filterDate collection (fromYMD y 1 1) (fromYMD y 12 31)) ->
  In s collection /\ dyear (time_start s) = y.
Proof.
  unfold filterDate. rewrite filter_In. intros [Hin H].
  apply andb_true_iff in H. destruct H as [H1 H2].
  apply date_leb_year in H1. apply date_ltb_year in H2. simpl in *.
  split; [exact Hin | lia].
Qed.

Lemma clip_allInvalid (b : Band) (g : Geometry) :
  allInvalid b -> allInvalid (clip b g).
Proof.
  intros H p. unfold clip. destruct (inside g p); [apply H | reflexivity].
Qed.

(** When no scene acquired in year [y] holds a valid pixel, the
    composite of [y] is masked everywhere. *)
Lemma annualComposite_allInvalid (collection : list Scene)
  (aoi : Geometry) (y : Z) :
  (forall s, In s collection -> dyear (time_start s) = y ->
             allInvalid (ndvi s)) ->
  allInvalid (px (annualComposite collection aoi y)).
Proof.
  intros H. unfold annualComposite.
  destruct (0 <? length _)%nat; simpl.
  - apply clip_allInvalid. intros p. apply median_allInvalid.
    apply Forall_map. apply Forall_forall. intros s Hs.
    apply filterDate_year in Hs. destruct Hs as [Hin Hy].
    apply (H s Hin Hy).
  - intros p. reflexivity.
Qed.

(* ===================================================================== *)
(** ** Sorting by year and the distinct years *)
(* ===================================================================== *)

Lemma insertByYear_In (i x : Image) (l : list Image) :
  In x (insertByYear i l) <-> x = i \/ In x l.
Proof.
  induction l as [|j rest IH]; simpl.
  - intuition congruence.
  - destruct (year j <=? year i)%Z; simpl; rewrite ?IH;
      intuition congruence.
Qed.

Lemma insertByYear_sorted (i : Image) (l : list Image) :
  StronglySorted yearLe l -> StronglySorted yearLe (insertByYear i l).
Proof.
  induction 1 as [|j rest Hs IH Hall]; simpl.
  - constructor; constructor.
  - destruct (year j <=? year i)%Z eqn:E.
    + constructor; [exact IH|]. apply Forall_forall. intros x Hx.
      apply insertByYear_In in Hx. destruct Hx as [->|Hx].
      * apply Z.leb_le in E. exact E.
      * rewrite Forall_forall in Hall. apply Hall. exact Hx.
    + apply Z.leb_gt in E. constructor.
      * constructor; assumption.
      * constructor; [unfold yearLe; lia|].
        eapply Forall_impl; [|exact Hall]. unfold yearLe. intros; lia.
Qed.

Lemma filter_hasYear_above (y : Z) (j : Image) (rest : list Image) :
  (y < year j)%Z -> Forall (yearLe j) rest ->
  filter (hasYear y) (j :: rest) = [].
Proof.
  intros Hlt Hall.
  assert (H : Forall (fun z => hasYear y z = false) (j :: rest)).
  { constructor.
    - apply Z.eqb_neq. lia.
    - eapply Forall_impl; [|exact Hall]. unfold yearLe, hasYear.
      intros z Hz. apply Z.eqb_neq. lia. }
  clear Hlt Hall. induction H as [|z l Hz _ IH]; simpl; [reflexivity|].
  rewrite Hz. exact IH.
Qed.

(** Insertion puts an image behind the images of the same year. *)
Lemma insertByYear_filter (y : Z) (i : Image) (l : list Image) :
  StronglySorted yearLe l ->
  filter (hasYear y) (insertByYear i l)
  = filter (hasYear y) l ++ filter (hasYear y) [i].
Proof.
  induction 1 as [|j rest Hs IH Hall].
  - reflexivity.
  - simpl insertByYear. destruct (year j <=? year i)%Z eqn:E.
    + simpl. rewrite IH. simpl. destruct (hasYear y j); reflexivity.
    + apply Z.leb_gt in E.
      change (filter (hasYear y) (i :: j :: rest))
        with (if hasYear y i
              then i :: filter (hasYear y) (j :: rest)
              else filter (hasYear y) (j :: rest)).
      change (filter (hasYear y) [i])
        with (if hasYear y i then [i] else []).
      destruct (hasYear y i) eqn:Ei.
      * apply Z.eqb_eq in Ei.
        rewrite filter_hasYear_above by (assumption || lia).
        reflexivity.
      * rewrite app_nil_r. reflexivity.
Qed.

Lemma fold_insertByYear (y : Z) (l : list Image) :
  forall acc,
    StronglySorted yearLe acc ->
    StronglySorted yearLe (fold_left (fun a i => insertByYear i a) l acc)
    /\ filter (hasYear y) (fold_left (fun a i => insertByYear i a) l acc)
       = filter (hasYear y) acc ++ filter (hasYear y) l.
Proof.
  induction l as [|i l IH]; intros acc Hacc; simpl.
  - rewrite app_nil_r. auto.
  - destruct (IH (insertByYear i acc) (insertByYear_sorted i Hacc))
      as [Hs Hf].
    split; [exact Hs|]. rewrite Hf, insertByYear_filter by exact Hacc.
    rewrite <- app_assoc. simpl. destruct (hasYear y i); reflexivity.
Qed.

(** Sorting by year keeps the images of each year, in their order. *)
Lemma sortByYear_filter (y : Z) (l : list Image) :
  filter (hasYear y) (sortByYear l) = filter (hasYear y) l.
Proof.
  unfold sortByYear.
  destruct (fold_insertByYear y l (SSorted_nil yearLe)) as [_ H].
  exact H.
Qed.

Lemma sortByYear_In (x : Image) (l : list Image) :
  In x (sortByYear l) <-> In x l.
Proof.
  unfold sortByYear.
  assert (H : forall acc,
             In x (fold_left (fun a i => insertByYear i a) l acc)
             <-> In x acc \/ In x l).
  { induction l as [|i l IH]; intros acc; simpl.
    - tauto.
    - rewrite IH, insertByYear_In. intuition congruence. }
  rewrite H. simpl. tauto.
Qed.

Lemma distinct_In (x : Z) (l : list Z) : In x (distinct l) <-> In x l.
Proof.
  induction l as [|a l IH]; simpl; [tauto|].
  rewrite filter_In, IH, negb_true_iff, Z.eqb_neq.
  destruct (Z.eq_dec a x); intuition congruence.
Qed.

Lemma distinct_NoDup (l : list Z) : NoDup (distinct l).
Proof.
  induction l as [|a l IH]; simpl; constructor.
  - rewrite filter_In, negb_true_iff, Z.eqb_neq. intros [_ H].
    apply H. reflexivity.
  - apply NoDup_filter. exact IH.
Qed.

Lemma insertZ_In (x a : Z) (l : list Z) :
  In x (insertZ a l) <-> x = a \/ In x l.
Proof.
  induction l as [|b l IH]; simpl.
  - intuition congruence.
  - destruct (a <=? b)%Z; simpl; rewrite ?IH; intuition congruence.
Qed.

Lemma insertZ_NoDup (a : Z) (l : list Z) :
  ~ In a l -> NoDup l -> NoDup (insertZ a l).
Proof.
  induction l as [|b l IH]; simpl; intros Hn Hd.
  - constructor; [tauto | constructor].
  - destruct (a <=? b)%Z.
    + constructor; [simpl; tauto | exact Hd].
    + inversion Hd; subst. constructor.
      * rewrite insertZ_In. intuition congruence.
      * apply IH; tauto.
Qed.

Lemma sortZ_In (x : Z) (l : list Z) : In x (sortZ l) <-> In x l.
Proof.
  induction l as [|a l IH]; simpl; [tauto|].
  rewrite insertZ_In, IH. intuition congruence.
Qed.

Lemma sortZ_NoDup (l : list Z) : NoDup l -> NoDup (sortZ l).
Proof.
  induction 1 as [|a l Hn Hd IH]; simpl; [constructor|].
  apply insertZ_NoDup; [rewrite sortZ_In; exact Hn | exact IH].
Qed.

Lemma distinctYears_In (y : Z) (l : list Image) :
  In y (distinctYears l) <-> In y (map year l).
Proof. unfold distinctYears. rewrite sortZ_In, distinct_In. tauto. Qed.

Lemma distinctYears_NoDup (l : list Image) : NoDup (distinctYears l).
Proof. apply sortZ_NoDup, distinct_NoDup. Qed.

(** Among images built one per year from a duplicate-free list of years,
    exactly one carries a given year of the list. *)
Lemma filter_hasYear_map (f : Z -> Band) (y : Z) (ys : list Z) :
  NoDup ys ->
  filter (hasYear y) (map (fun z => mkImage (f z) z) ys)
  = if in_dec Z.eq_dec y ys then [mkImage (f y) y] else [].
Proof.
  induction 1 as [|a ys Hn Hd IH]; [reflexivity|].
  simpl map. simpl filter. unfold hasYear at 1. simpl year. rewrite IH.
  destruct (Z.eqb_spec a y) as [->|Hne].
  - destruct (in_dec Z.eq_dec y ys) as [Hi|Hi]; [tauto|].
    destruct (in_dec Z.eq_dec y (y :: ys)) as [Hj|Hj];
      [reflexivity | exfalso; apply Hj; left; reflexivity].
  - destruct (in_dec Z.eq_dec y ys) as [Hi|Hi];
      destruct (in_dec Z.eq_dec y (a :: ys)) as [Hj|Hj];
      try reflexivity; exfalso.
    + apply Hj. right. exact Hi.
    + destruct Hj as [Hj|Hj]; [congruence | tauto].
Qed.

(* ===================================================================== *)
(** ** One composite per year *)
(* ===================================================================== *)

Lemma uniqueAnnualNdviComposites_hasYear (allAnnual : list Image)
  (y : Z) :
  In y (map year allAnnual) ->
  filter (hasYear y) (uniqueAnnualNdviComposites allAnnual)
  = [mkImage (median (map px (filter (hasYear y) allAnnual))) y].
Proof.
  intros Hy. unfold uniqueAnnualNdviComposites.
  rewrite (filter_hasYear_map
             (fun z => median (map px (filter (hasYear z) allAnnual))))
    by apply distinctYears_NoDup.
  destruct (in_dec Z.eq_dec y (distinctYears allAnnual)) as [H|H];
    [reflexivity|].
  exfalso. apply H. apply distinctYears_In. exact Hy.
Qed.

Lemma uniqueAnnualNdviComposites_In (allAnnual : list Image)
  (u : Image) :
  In u (uniqueAnnualNdviComposites allAnnual) ->
  u = mkImage (median (map px (filter (hasYear (year u)) allAnnual)))
        (year u).
Proof.
  unfold uniqueAnnualNdviComposites. intros H.
  apply in_map_iff in H. destruct H as (y & <- & _). reflexivity.
Qed.

(** C9.  For every year carried by some per-sensor annual composite (in
    particular a year present in several sensors' collections), exactly
    one image of the unique-composite collection carries that year, and
    it is the pixel-wise median of all the per-sensor composites tagged
    with that year, whichever sensor they come from. *)
Theorem unique_composite_is_median_across_sensors
  (annualL5 annualL7 annualL8 : list Image) (y : Z)
  (Hy : In y (map year (annualL5 ++ annualL7 ++ annualL8))) :
  let unique :=
    uniqueAnnualNdviComposites
      (allAnnualNdviComposites annualL5 annualL7 annualL8) in
  let sameYear :=
    filter (hasYear y) annualL5 ++ filter (hasYear y) annualL7
    ++ filter (hasYear y) annualL8 in
  exists u,
    filter (hasYear y) unique = [u]
    /\ year u = y
    /\ px u = median (map px sameYear).
Proof.
  intros unique sameYear.
  exists (mkImage (median (map px sameYear)) y).
  split; [|split; reflexivity].
  unfold unique, sameYear. rewrite uniqueAnnualNdviComposites_hasYear.
  - unfold allAnnualNdviComposites.
    rewrite sortByYear_filter, !filter_app. reflexivity.
  - unfold allAnnualNdviComposites.
    apply in_map_iff in Hy. destruct Hy as (i & Hi & Hin).
    apply in_map_iff. exists i. split; [exact Hi|].
    apply sortByYear_In. exact Hin.
Qed.

(* ===================================================================== *)
(** ** Years without observations *)
(* ===================================================================== *)

Lemma detectDeforestation_invalid_composite (c : Image) (m : Band)
  (t : Q) (p : Pixel) :
  px c p = None -> px (detectDeforestation c m t) p = None.
Proof.
  intros H. unfold detectDeforestation. simpl.
  unfold selfMask, and, lt, lift2. rewrite H.
  destruct (eq m 1 p); reflexivity.
Qed.

Lemma persistentDeforestation_invalid (a b : Image) (p : Pixel) :
  validTrue (px a) p = false \/ validTrue (px b) p = false ->
  px (persistentDeforestation a b) p = None.
Proof.
  intros H.
  destruct (persistentDeforestation_onlyOnes a b p) as [E|E];
    [exact E|].
  assert (V : validTrue (px (persistentDeforestation a b)) p = true)
    by (unfold validTrue; rewrite E; reflexivity).
  rewrite persistentDeforestation_validTrue in V.
  apply andb_true_iff in V. destruct V as [_ V].
  apply andb_true_iff in V. destruct V as [Va Vb].
  destruct H; congruence.
Qed.

Lemma allInvalid_validTrue (b : Band) (p : Pixel) :
  allInvalid b -> validTrue b p = false.
Proof. intros H. unfold validTrue. rewrite H. reflexivity. Qed.

Section EmptyYear.

Variables landsat5 landsat7 landsat8 : list Scene.
Variable aoi : Geometry.
Variable Y : Z.

(** No scene of any sensor acquired in year [Y] holds a valid pixel. *)
Hypothesis noObservation :
  forall s, In s (landsat5 ++ landsat7 ++ landsat8) ->
            dyear (time_start s) = Y -> allInvalid (ndvi s).

Lemma sensor_composite_allInvalid (collection : list Scene) (s e : Z)
  (i : Image) :
  (forall x, In x collection -> In x (landsat5 ++ landsat7 ++ landsat8)) ->
  In i (createAnnualMedianComposite collection s e aoi) ->
  year i = Y -> allInvalid (px i).
Proof.
  intros Hsub Hin Hy. rewrite (createAnnualMedianComposite_In _ _ _ _ _ Hin).
  rewrite Hy. apply annualComposite_allInvalid.
  intros x Hx. apply noObservation. apply Hsub. exact Hx.
Qed.

Lemma scriptUnique_allInvalid (u : Image) :
  In u (scriptUnique landsat5 landsat7 landsat8 aoi) ->
  year u = Y -> allInvalid (px u).
Proof.
  intros Hin Hy p. unfold scriptUnique in Hin.
  rewrite (uniqueAnnualNdviComposites_In _ _ Hin). cbn [px].
  apply median_allInvalid. apply Forall_map. apply Forall_forall.
  intros i Hi. apply filter_In in Hi. destruct Hi as [Hi Hyi].
  unfold hasYear in Hyi. apply Z.eqb_eq in Hyi. rewrite Hy in Hyi.
  unfold scriptAllAnnual, allAnnualNdviComposites in Hi.
  apply (proj1 (sortByYear_In _ _)) in Hi.
  unfold annualL5Composites, annualL7Composites, annualL8Composites in Hi.
  apply in_app_or in Hi. destruct Hi as [Hi|Hi];
    [|apply in_app_or in Hi; destruct Hi as [Hi|Hi]].
  - apply (@sensor_composite_allInvalid landsat5 1984 2011 i);
      [|exact Hi|exact Hyi].
    intros x Hx. apply in_or_app. left. exact Hx.
  - apply (@sensor_composite_allInvalid landsat7 1999 2020 i);
      [|exact Hi|exact Hyi].
    intros x Hx. apply in_or_app. right. apply in_or_app. left. exact Hx.
  - apply (@sensor_composite_allInvalid landsat8 2013 2020 i);
      [|exact Hi|exact Hyi].
    intros x Hx. apply in_or_app. right. apply in_or_app. right. exact Hx.
Qed.

Lemma deforestationList_allInvalid (c : Image) :
  In c (deforestationList landsat5 landsat7 landsat8 aoi) ->
  year c = Y -> allInvalid (px c).
Proof.
  unfold deforestationList, yearlyDeforestation. intros Hin Hy p.
  apply in_map_iff in Hin. destruct Hin as (u & <- & Hu).
  apply filter_In in Hu. destruct Hu as [Hu _].
  apply detectDeforestation_invalid_composite.
  apply (scriptUnique_allInvalid _ Hu Hy).
Qed.

End EmptyYear.

(** C5.  When no scene of any sensor acquired in year [Y] holds a valid
    pixel (in particular when there is no scene at all), each sensor's
    composite of [Y] is masked everywhere, every candidate raster tagged
    [Y] is masked everywhere, the persistence loop returns a result, and
    the image of every pair that involves a candidate tagged [Y] is
    masked everywhere. *)
Theorem year_without_observations_is_all_false
  (landsat5 landsat7 landsat8 : list Scene) (aoi : Geometry) (Y : Z)
  (noObservation :
     forall s, In s (landsat5 ++ landsat7 ++ landsat8) ->
               dyear (time_start s) = Y -> allInvalid (ndvi s)) :
  let candidates := deforestationList landsat5 landsat7 landsat8 aoi in
  (allInvalid (px (annualComposite landsat5 aoi Y))
   /\ allInvalid (px (annualComposite landsat7 aoi Y))
   /\ allInvalid (px (annualComposite landsat8 aoi Y)))
  /\ (forall c, In c candidates -> year c = Y -> allInvalid (px c))
  /\ exists refined,
       refinedDeforestationList candidates = Some refined
       /\ forall i a b,
            nth_error candidates i = Some a ->
            nth_error candidates (S i) = Some b ->
            year a = Y \/ year b = Y ->
            exists r, nth_error refined i = Some r /\ allInvalid (px r).
Proof.
  intros candidates.
  assert (Hcand : forall c, In c candidates -> year c = Y ->
                            allInvalid (px c)).
  { intros c Hc Hy.
    exact (deforestationList_allInvalid _ _ _ _ noObservation c Hc Hy). }
  split; [|split; [exact Hcand|]].
  - repeat split; apply annualComposite_allInvalid; intros s Hs Hy;
      (apply noObservation; [rewrite !in_app_iff; auto | exact Hy]).
  - exists (adjacentPairs candidates).
    split; [apply refinedDeforestationList_total|].
    intros i a b Ha Hb Hy.
    exists (persistentDeforestation a b). split.
    + apply adjacentPairs_nth_error. exists a, b. auto.
    + intros p. apply persistentDeforestation_invalid.
      destruct Hy as [Hy|Hy]; [left|right];
        apply allInvalid_validTrue; apply Hcand; auto;
        eapply nth_error_In; eassumption.
Qed.

(* ===================================================================== *)
(** ** Area statistics *)
(* ===================================================================== *)

Lemma reduceRegionSum_multiply (pixelArea : Pixel -> Q) (b : Band)
  (region : Geometry) :
  reduceRegionSum (multiply b (pixelAreaImage pixelArea)) region
  = nativeUnitArea pixelArea b region.
Proof.
  unfold reduceRegionSum, nativeUnitArea. f_equal.
  apply map_ext. intros p.
  unfold contribution, multiply, lift2, pixelAreaImage.
  destruct (b p); reflexivity.
Qed.

Lemma nativeUnitArea_all_false (pixelArea : Pixel -> Q) (b : Band)
  (region : Geometry) :
  (forall p, In p region -> validTrue b p = false) ->
  nativeUnitArea pixelArea b region == 0.
Proof.
  unfold nativeUnitArea.
  induction region as [|q region IH]; intros H; simpl.
  - reflexivity.
  - rewrite IH by (intros p Hp; apply H; right; exact Hp).
    assert (Hq := H q (or_introl Logic.eq_refl)).
    unfold validTrue in Hq. destruct (b q) as [v|].
    + apply nonzero_false_iff in Hq. rewrite Hq. ring.
    + ring.
Qed.

(** C8, as the script has it.  The area attached to an image is the sum,
    over the cells of the region, of the image value times the ground
    area of the cell, masked cells adding nothing, divided by 1e6: the
    quantifier itself converts square metres to square kilometres at
    each call. *)
Theorem calculateDeforestedArea_is_sum_in_square_km
  (pixelArea : Pixel -> Q) (b : Band) (region : Geometry) :
  calculateDeforestedArea pixelArea b region
  == nativeUnitArea pixelArea b region / 1000000.
Proof.
  unfold calculateDeforestedArea. rewrite reduceRegionSum_multiply.
  reflexivity.
Qed.

(** C7.  An image that is valid-true at no cell of the region (masked
    everywhere, the no-data case included, or holding only zeros) gets
    the area zero. *)
Theorem area_of_all_false_raster_is_zero
  (pixelArea : Pixel -> Q) (refinedDeforestation : list Image)
  (aoi : Geometry) (ai : AreaImage)
  (Hin : In ai (refinedDeforestationWithArea pixelArea
                  refinedDeforestation aoi))
  (Hfalse : forall p, In p aoi -> validTrue (px (image ai)) p = false) :
  deforested_area_sqkm ai == 0.
Proof.
  unfold refinedDeforestationWithArea in Hin.
  apply in_map_iff in Hin. destruct Hin as (i & <- & _).
  simpl in *. unfold calculateDeforestedArea.
  rewrite reduceRegionSum_multiply, nativeUnitArea_all_false by exact Hfalse.
  reflexivity.
Qed.

(** The area list has one entry per confirmed raster: no raster makes
    the quantifier fail. *)
Lemma refinedDeforestationWithArea_length (pixelArea : Pixel -> Q)
  (refinedDeforestation : list Image) (aoi : Geometry) :
  length (refinedDeforestationWithArea pixelArea refinedDeforestation aoi)
  = length refinedDeforestation.
Proof. unfold refinedDeforestationWithArea. apply length_map. Qed.

(* ===================================================================== *)
(** ** Calendar years and the date filter *)
(* ===================================================================== *)

(** The date test of the loop on a date of the calendar: the year is
    [y] and the day is not December 31. *)
Lemma selected_by_loop (d : Date) (y : Z) :
  wellFormed d ->
  date_leb (fromYMD y 1 1) d && date_ltb d (fromYMD y 12 31)
  = (dyear d =? y)%Z && negb ((dmonth d =? 12)%Z && (dday d =? 31)%Z).
Proof.
  intros (Hm & Hd & Hms). unfold date_leb, date_ltb, fromYMD.
  destruct d as [ty tm td tms]. simpl in *.
  bool_cases; simpl; try reflexivity; lia.
Qed.

(** The scenes the loop selects for [y]: those of the calendar year [y]
    acquired before December 31. *)
Lemma filterDate_selects_before_december_31 (collection : list Scene)
  (y : Z) (s : Scene) :
  wellFormed (time_start s) ->
  (In s (filterDate collection (fromYMD y 1 1) (fromYMD y 12 31))
   <-> In s collection
       /\ dyear (time_start s) = y
       /\ ~ (dmonth (time_start s) = 12 /\ dday (time_start s) = 31)%Z).
Proof.
  intros Hwf. unfold filterDate. rewrite filter_In.
  rewrite (selected_by_loop y Hwf), andb_true_iff, negb_true_iff,
    andb_false_iff, Z.eqb_eq, !Z.eqb_neq.
  split.
  - intros (Hin & Hy & Hd). repeat split; auto. lia.
  - intros (Hin & Hy & Hd). repeat split; auto. lia.
Qed.

(** Away from December 31 the loop's composite is the composite of the
    calendar year. *)
Lemma annualComposite_calendar_year (collection : list Scene)
  (aoi : Geometry) (y : Z) :
  (forall s, In s collection ->
             wellFormed (time_start s)
             /\ ~ (dmonth (time_start s) = 12
                   /\ dday (time_start s) = 31)%Z) ->
  annualComposite collection aoi y = calendarYearComposite collection aoi y.
Proof.
  intros H. unfold annualComposite, calendarYearComposite, filterDate.
  rewrite (filter_ext_in _ (inCalendarYear y)); [reflexivity|].
  intros s Hs. destruct (H s Hs) as [Hwf Hd].
  rewrite (selected_by_loop y Hwf). unfold inCalendarYear.
  destruct (Z.eqb_spec (dmonth (time_start s)) 12);
    destruct (Z.eqb_spec (dday (time_start s)) 31);
    simpl; rewrite ?andb_true_r; try reflexivity.
  exfalso. apply Hd. split; assumption.
Qed.

(** C3 at [sceneOfDecember31]: the loop's composite of 1990 is masked at
    the scene's valid cell although the scene lies in calendar year
    1990, where the median over the calendar year is 0.8. *)
Theorem annualComposite_leaves_out_december_31 :
  inCalendarYear 1990 sceneOfDecember31 = true
  /\ filterDate [sceneOfDecember31] (fromYMD 1990 1 1) (fromYMD 1990 12 31)
     = []
  /\ px (annualComposite [sceneOfDecember31] [(0, 0)%nat] 1990)
       (0, 0)%nat = None
  /\ px (calendarYearComposite [sceneOfDecember31] [(0, 0)%nat] 1990)
       (0, 0)%nat = Some (8 # 10).
Proof. repeat split. Qed.

(* ===================================================================== *)
(** ** Year of deforestation *)
(* ===================================================================== *)

Lemma yearImage_valid (ai : AreaImage) (p : Pixel) :
  exists v, yearImage ai p = Some v.
Proof.
  unfold yearImage, multiply, lift2, unmask, constant.
  destruct (px (image ai) p); eauto.
Qed.

Lemma mosaic_last (bs : list Band) (b : Band) (p : Pixel) (v : Q) :
  b p = Some v -> mosaic (bs ++ [b]) p = Some v.
Proof.
  intros H. induction bs as [|a bs IH]; simpl.
  - rewrite H. reflexivity.
  - rewrite IH. reflexivity.
Qed.

(** Every year image is valid everywhere, so the mosaic shows the last
    one only: the result is the self-masked year image of the last
    confirmed raster. *)
Lemma yearOfDeforestation_last (l : list AreaImage) (ai : AreaImage)
  (p : Pixel) :
  yearOfDeforestation (l ++ [ai]) p = selfMask (yearImage ai) p.
Proof.
  unfold yearOfDeforestation. rewrite map_app. simpl map.
  fold (yearImage ai).
  destruct (yearImage_valid ai p) as [v Hv].
  unfold selfMask at 1. rewrite (mosaic_last _ _ _ Hv).
  unfold selfMask. rewrite Hv. reflexivity.
Qed.

(** A pixel that the last confirmed raster does not hold valid-true is
    masked in the result, whatever the earlier rasters hold. *)
Lemma yearOfDeforestation_last_false (l : list AreaImage)
  (ai : AreaImage) (p : Pixel) :
  validTrue (px (image ai)) p = false ->
  yearOfDeforestation (l ++ [ai]) p = None.
Proof.
  intros H. rewrite yearOfDeforestation_last.
  apply selfMask_None. unfold validTrue in *.
  unfold yearImage, multiply, lift2, unmask, constant.
  destruct (px (image ai) p) as [v|].
  - apply nonzero_false_iff in H. apply nonzero_false_iff.
    rewrite H. ring.
  - apply nonzero_false_iff. ring.
Qed.

(** A pixel confirmed in no raster is masked in the result. *)
Lemma yearOfDeforestation_never_confirmed (l : list AreaImage)
  (p : Pixel) :
  (forall ai, In ai l -> validTrue (px (image ai)) p = false) ->
  yearOfDeforestation l p = None.
Proof.
  induction l as [|ai l' _] using rev_ind; intros H.
  - reflexivity.
  - apply yearOfDeforestation_last_false.
    apply H. apply in_or_app. right. left. reflexivity.
Qed.

(** The earliest year is the year of an image that is valid-true at the
    pixel, and no image valid-true there carries a smaller year. *)
Lemma earliestYear_Some (l : list Image) (p : Pixel) :
  forall y,
    earliestYear l p = Some y ->
    (exists i, In i l /\ validTrue (px i) p = true /\ year i = y)
    /\ (forall i, In i l -> validTrue (px i) p = true -> (y <= year i)%Z).
Proof.
  induction l as [|j l IH]; simpl; intros y H; [discriminate|].
  destruct (validTrue (px j) p) eqn:Vj.
  - destruct (earliestYear l p) as [z|] eqn:E.
    + inversion H; subst. destruct (IH z Logic.eq_refl) as [(i & Hi) Hmin].
      split.
      * destruct (Z.min_spec (year j) z) as [[_ ->]|[_ ->]].
        -- exists j. auto.
        -- exists i. tauto.
      * intros k [<-|Hk] Vk; [lia|]. specialize (Hmin k Hk Vk). lia.
    + inversion H; subst. split; [exists j; auto|].
      intros k [<-|Hk] Vk; [lia|].
      exfalso. clear IH H. induction l as [|m l IHl]; [contradiction|].
      simpl in E. destruct Hk as [->|Hk].
      * rewrite Vk in E. destruct (earliestYear l p); discriminate.
      * destruct (validTrue (px m) p);
          [destruct (earliestYear l p); discriminate | auto].
  - destruct (IH y H) as [(i & Hi) Hmin]. split.
    + exists i. tauto.
    + intros k [<-|Hk] Vk; [congruence | auto].
Qed.

(** The spec's scenario: cell (2, 2) is confirmed for 1991 and not for
    1992, so its earliest confirmed year is 1991; the year-of-deforestation
    image is masked there. *)
Lemma yearOfDeforestation_scenario_1991 :
  refinedDeforestationList candidates1991to1993
  = Some confirmed1991to1992
  /\ map year confirmed1991to1992 = [1991; 1992]%Z
  /\ map (fun i => validTrue (px i) (2, 2)%nat) confirmed1991to1992
     = [true; false]
  /\ earliestYear confirmed1991to1992 (2, 2)%nat = Some 1991%Z
  /\ yearOfDeforestation
       (refinedDeforestationWithArea (fun _ => 900) confirmed1991to1992
          grid5x5) (2, 2)%nat = None.
Proof. repeat split. Qed.

(** C1 at [candidatesTwoCells].  The persistence loop confirms cell
    (1, 1) for 1991 and cell (2, 2) for 1992.  The earliest confirmed
    year of cell (1, 1) is 1991, and the year-of-deforestation image is
    masked there: it shows the raster of 1992 only. *)
Theorem yearOfDeforestation_loses_first_year :
  refinedDeforestationList candidatesTwoCells = Some confirmedTwoCells
  /\ map year confirmedTwoCells = [1991; 1992]%Z
  /\ map (fun i => validTrue (px i) (1, 1)%nat) confirmedTwoCells
     = [true; false]
  /\ map (fun i => validTrue (px i) (2, 2)%nat) confirmedTwoCells
     = [false; true]
  /\ earliestYear confirmedTwoCells (1, 1)%nat = Some 1991%Z
  /\ yearOfDeforestation
       (refinedDeforestationWithArea (fun _ => 900) confirmedTwoCells
          grid5x5) (1, 1)%nat = None
  /\ yearOfDeforestation
       (refinedDeforestationWithArea (fun _ => 900) confirmedTwoCells
          grid5x5) (2, 2)%nat = Some 1992.
Proof. repeat split. Qed.

(** With the first image on top, as the comment reads [mosaic], the same
    input loses the other cell: the earliest confirmed year of cell
    (2, 2) is 1992 and the image is masked there. *)
Lemma yearOfDeforestation_first_on_top_loses_later_year :
  earliestYear confirmedTwoCells (2, 2)%nat = Some 1992%Z
  /\ yearOfDeforestationFirstOnTop
       (refinedDeforestationWithArea (fun _ => 900) confirmedTwoCells
          grid5x5) (2, 2)%nat = None
  /\ yearOfDeforestationFirstOnTop
       (refinedDeforestationWithArea (fun _ => 900) confirmedTwoCells
          grid5x5) (1, 1)%nat = Some 1991.
Proof. repeat split. Qed.

(* ===================================================================== *)
(** ** Concrete runs *)
(* ===================================================================== *)

Lemma forestAtCentre_isBinary : isBinary forestAtCentre.
Proof.
  intros p v. unfold forestAtCentre, onePixel.
  destruct (pixel_eqb p (2, 2)%nat); intros H; inversion H.
  right. reflexivity.
Qed.

(** C4 on [forestAtCentre] and [composite1991] with threshold 0.3: the
    detector is valid-true at the forest cell and masked at a cell
    outside the forest. *)
Lemma detectDeforestation_at_centre :
  validTrue (px (detectDeforestation composite1991 forestAtCentre
                   (3 # 10))) (2, 2)%nat = true
  /\ px (detectDeforestation composite1991 forestAtCentre (3 # 10))
       (3, 3)%nat = None.
Proof.
  split.
  - apply (proj1 (detectDeforestation_true_iff_forest_and_below
                    composite1991 (3 # 10) forestAtCentre_isBinary
                    (2, 2)%nat)).
    split; [reflexivity|]. exists (2 # 10). split; reflexivity.
  - apply (proj2 (detectDeforestation_true_iff_forest_and_below
                    composite1991 (3 # 10) forestAtCentre_isBinary
                    (3, 3)%nat)).
    reflexivity.
Defined.

(** C5 on one clear scene of 1991 and one fully clouded scene of 1992:
    the composite and the candidates of 1992 are masked everywhere. *)
Lemma year_1992_without_observations :
  allInvalid (px (annualComposite [clearScene1991; cloudedScene1992]
                    grid5x5 1992))
  /\ (forall c,
         In c (deforestationList [clearScene1991; cloudedScene1992]
                 [] [] grid5x5) ->
         year c = 1992%Z -> allInvalid (px c)).
Proof.
  assert (H : forall s,
             In s ([clearScene1991; cloudedScene1992] ++ [] ++ []) ->
             dyear (time_start s) = 1992%Z -> allInvalid (ndvi s)).
  { intros s [<-|[<-|[]]] Hy p; [discriminate Hy | reflexivity]. }
  destruct (year_without_observations_is_all_false
              [clearScene1991; cloudedScene1992] [] [] grid5x5 H)
    as ((H5 & _) & Hc & _).
  split; assumption.
Defined.

(** C7 on the sentinel of a year without data. *)
Lemma area_of_sentinel_is_zero :
  deforested_area_sqkm
    (mkAreaImage sentinel1991
       (calculateDeforestedArea (fun _ => 900) (px sentinel1991) grid5x5))
  == 0.
Proof.
  apply (@area_of_all_false_raster_is_zero (fun _ => 900) [sentinel1991]
           grid5x5).
  - left. reflexivity.
  - intros p _. reflexivity.
Defined.

(** C9 on year 2000 seen by two sensors. *)
Lemma year_2000_two_sensors :
  exists u,
    filter (hasYear 2000)
      (uniqueAnnualNdviComposites
         (allAnnualNdviComposites [mkImage (constant (6 # 10)) 2000]
            [mkImage (constant (4 # 10)) 2000] []))
    = [u]
    /\ year u = 2000%Z
    /\ px u = median (map px ([mkImage (constant (6 # 10)) 2000]
                              ++ [mkImage (constant (4 # 10)) 2000]
                              ++ [])).
Proof.
  apply (@unique_composite_is_median_across_sensors
           [mkImage (constant (6 # 10)) 2000]
           [mkImage (constant (4 # 10)) 2000] [] 2000).
  left. reflexivity.
Defined.

(** C8 at one confirmed cell of 900 square metres: the sum of the
    products is 900, the quantifier returns 0.0009. *)
Lemma area_is_converted_to_square_km :
  nativeUnitArea (fun _ => 900) forestAtCentre grid5x5 == 900
  /\ calculateDeforestedArea (fun _ => 900) forestAtCentre grid5x5
     == 9 # 10000
  /\ ~ calculateDeforestedArea (fun _ => 900) forestAtCentre grid5x5
       == nativeUnitArea (fun _ => 900) forestAtCentre grid5x5.
Proof.
  split; [reflexivity|]. split; [reflexivity|].
  intros H. apply Qeq_bool_iff in H. vm_compute in H. discriminate.
Qed.

(* ===================================================================== *)
(** ** Cloud masking and NDVI *)
(* ===================================================================== *)

Lemma land_shiftl_1 (x n : Z) :
  (0 <= n)%Z ->
  (Z.land x (Z.shiftl 1 n) =? 0)%Z = negb (Z.testbit x n).
Proof.
  intros Hn. rewrite Z.shiftl_1_l.
  destruct (Z.testbit x n) eqn:E; simpl.
  - apply Z.eqb_neq. intros H.
    assert (T : Z.testbit (Z.land x (2 ^ n)) n = true).
    { rewrite Z.land_spec, E, Z.pow2_bits_true by exact Hn. reflexivity. }
    rewrite H, Z.bits_0 in T. discriminate.
  - apply Z.eqb_eq. apply Z.bits_inj'. intros m Hm.
    rewrite Z.land_spec, Z.bits_0, (Z.pow2_bits_eqb n m) by exact Hn.
    destruct (Z.eqb_spec n m) as [<-|_].
    + rewrite E. reflexivity.
    + apply andb_false_r.
Qed.

(** The mask built by both cloud-masking functions keeps exactly the
    pixels flagged clear. *)
Lemma updateMask_clear (A : Type) (a : Pixel -> option A) (qa : IntBand)
  (p : Pixel) :
  updateMask a
    (and (eqInt (bitwiseAnd qa (Z.shiftl 1 3)) 0)
         (eqInt (bitwiseAnd qa (Z.shiftl 1 5)) 0)) p
  = keepWhere (clearAt qa) a p.
Proof.
  unfold updateMask, keepWhere, clearAt, and, lift2, eqInt, bitwiseAnd.
  destruct (qa p) as [q|]; cbv [option_map].
  - destruct (a p) as [v|].
    + rewrite !nonzero_ofBool, !land_shiftl_1 by lia.
      destruct (negb (Z.testbit q 3) && negb (Z.testbit q 5)); reflexivity.
    + destruct (negb (Z.testbit q 3) && negb (Z.testbit q 5)); reflexivity.
  - destruct (a p); reflexivity.
Qed.

(** X1.  [maskL457Clouds] and [maskL8Clouds] keep a pixel of a band, with
    its value, exactly where the quality band is valid and flags neither
    cloud shadow (bit 3) nor cloud (bit 5); every other pixel is masked.
    The acquisition time and the footprint are unchanged. *)
Theorem cloud_masks_keep_clear_pixels (image : RawScene) (p : Pixel) :
  let masked := maskL457Clouds image in
  let clear := clearAt (pixel_qa image) in
  B3 masked p = keepWhere clear (B3 image) p
  /\ B4 masked p = keepWhere clear (B4 image) p
  /\ B5 masked p = keepWhere clear (B5 image) p
  /\ pixel_qa masked p = keepWhere clear (pixel_qa image) p
  /\ acquired masked = acquired image
  /\ footprint masked = footprint image
  /\ maskL8Clouds image = masked.
Proof.
  simpl. repeat split; apply updateMask_clear.
Qed.

Lemma normalizedDifference_Some (a b : Band) (p : Pixel) (v : Q) :
  normalizedDifference a b p = Some v ->
  exists x y, a p = Some x /\ b p = Some y /\ 0 <= x /\ 0 <= y
              /\ v = (x - y) / (x + y).
Proof.
  unfold normalizedDifference.
  destruct (a p) as [x|]; [|discriminate].
  destruct (b p) as [y|]; [|discriminate].
  destruct (Qltb x 0) eqn:Ex; [discriminate|].
  destruct (Qltb y 0) eqn:Ey; [discriminate|].
  simpl. intros H. inversion H. exists x, y.
  repeat split; try reflexivity.
  - apply Qnot_lt_le. intros L. apply Qltb_lt in L. congruence.
  - apply Qnot_lt_le. intros L. apply Qltb_lt in L. congruence.
Qed.

Lemma normalized_ratio_bounds (x y : Q) :
  0 <= x -> 0 <= y -> -1 <= (x - y) / (x + y) <= 1.
Proof.
  intros Hx Hy.
  destruct (Qeq_dec (x + y) 0) as [E|E].
  - assert (Z0 : (x - y) / (x + y) == 0).
    { unfold Qdiv. rewrite E. unfold Qinv. simpl. ring. }
    rewrite Z0. split; discriminate.
  - assert (P : 0 < x + y).
    { destruct (Qlt_le_dec 0 (x + y)) as [L|L]; [exact L|].
      exfalso. apply E. lra. }
    split.
    + apply Qle_shift_div_l; [exact P | lra].
    + apply Qle_shift_div_r; [exact P | lra].
Qed.

Lemma normalizedDifference_within (a b : Band) :
  bandWithin (-1) 1 (normalizedDifference a b).
Proof.
  intros p v H. apply normalizedDifference_Some in H.
  destruct H as (x & y & _ & _ & Hx & Hy & ->).
  apply normalized_ratio_bounds; assumption.
Qed.

(** X2.  The NDVI band added by [calculateL5L7Ndvi] (near infrared B4,
    red B3) and by [calculateL8Ndvi] (B5, B4) is valid only where both
    bands are valid and non-negative; its value is their normalized
    difference and lies between -1 and 1. *)
Theorem ndvi_is_normalized_difference_within_unit_range
  (image : RawScene) (p : Pixel) (v : Q) :
  (NDVI (calculateL5L7Ndvi image) p = Some v ->
   exists nir red,
     B4 image p = Some nir /\ B3 image p = Some red
     /\ 0 <= nir /\ 0 <= red
     /\ v = (nir - red) / (nir + red) /\ -1 <= v <= 1)
  /\ (NDVI (calculateL8Ndvi image) p = Some v ->
      exists nir red,
        B5 image p = Some nir /\ B4 image p = Some red
        /\ 0 <= nir /\ 0 <= red
        /\ v = (nir - red) / (nir + red) /\ -1 <= v <= 1).
Proof.
  split; intros H; simpl in H;
    destruct (normalizedDifference_Some _ _ _ H)
      as (x & y & Hx & Hy & Px & Py & E);
    exists x, y; repeat split; auto;
    rewrite E; apply normalized_ratio_bounds; assumption.
Qed.

(** The scenes a loader returns: masked, then given their NDVI band. *)
Lemma loadLandsat5_In (catalogue : list RawScene) (g : Geometry)
  (s : NdviScene) :
  In s (loadLandsat5 catalogue g)
  <-> exists r, In r catalogue
                /\ s = calculateL5L7Ndvi (maskL457Clouds r)
                /\ date_leb (fromYMD 1984 1 1) (acquired r)
                   && date_ltb (acquired r) (fromYMD 2011 12 31) = true
                /\ intersects (footprint r) g = true.
Proof.
  unfold loadLandsat5, filterBounds, filterDateRaw.
  rewrite map_map, in_map_iff. split.
  - intros (r & <- & Hr). apply filter_In in Hr. destruct Hr as [Hr Hb].
    apply filter_In in Hr. destruct Hr as [Hr Hd]. exists r. auto.
  - intros (r & Hr & -> & Hd & Hb). exists r. split; [reflexivity|].
    apply filter_In. split; [|exact Hb]. apply filter_In. auto.
Qed.

Lemma loadLandsat7_In (catalogue : list RawScene) (g : Geometry)
  (s : NdviScene) :
  In s (loadLandsat7 catalogue g)
  <-> exists r, In r catalogue
                /\ s = calculateL5L7Ndvi (maskL457Clouds r)
                /\ date_leb (fromYMD 1999 1 1) (acquired r)
                   && date_ltb (acquired r) (fromYMD 2020 12 31) = true
                /\ intersects (footprint r) g = true.
Proof.
  unfold loadLandsat7, filterBounds, filterDateRaw.
  rewrite map_map, in_map_iff. split.
  - intros (r & <- & Hr). apply filter_In in Hr. destruct Hr as [Hr Hb].
    apply filter_In in Hr. destruct Hr as [Hr Hd]. exists r. auto.
  - intros (r & Hr & -> & Hd & Hb). exists r. split; [reflexivity|].
    apply filter_In. split; [|exact Hb]. apply filter_In. auto.
Qed.

Lemma loadLandsat8_In (catalogue : list RawScene) (g : Geometry)
  (s : NdviScene) :
  In s (loadLandsat8 catalogue g)
  <-> exists r, In r catalogue
                /\ s = calculateL8Ndvi (maskL8Clouds r)
                /\ date_leb (fromYMD 2013 1 1) (acquired r)
                   && date_ltb (acquired r) (fromYMD 2020 12 31) = true
                /\ intersects (footprint r) g = true.
Proof.
  unfold loadLandsat8, filterBounds, filterDateRaw.
  rewrite map_map, in_map_iff. split.
  - intros (r & <- & Hr). apply filter_In in Hr. destruct Hr as [Hr Hb].
    apply filter_In in Hr. destruct Hr as [Hr Hd]. exists r. auto.
  - intros (r & Hr & -> & Hd & Hb). exists r. split; [reflexivity|].
    apply filter_In. split; [|exact Hb]. apply filter_In. auto.
Qed.

Lemma keepWhere_Some (A : Type) (keep : Pixel -> bool)
  (a : Pixel -> option A) (p : Pixel) (v : A) :
  keepWhere keep a p = Some v -> keep p = true /\ a p = Some v.
Proof.
  unfold keepWhere. destruct (keep p); [auto | discriminate].
Qed.

(** The NDVI of a masked scene is valid only at clear pixels. *)
Lemma ndvi_of_masked_scene_clear (r : RawScene) (p : Pixel) (v : Q) :
  (NDVI (calculateL5L7Ndvi (maskL457Clouds r)) p = Some v ->
   clearAt (pixel_qa r) p = true)
  /\ (NDVI (calculateL8Ndvi (maskL8Clouds r)) p = Some v ->
      clearAt (pixel_qa r) p = true).
Proof.
  split; intros H; simpl in H;
    destruct (normalizedDifference_Some _ _ _ H) as (x & y & Hx & _);
    rewrite updateMask_clear in Hx;
    apply keepWhere_Some in Hx; tauto.
Qed.

(** X3.  Every scene returned by [loadLandsat5], [loadLandsat7] or
    [loadLandsat8] comes from a scene of the catalogue whose footprint
    meets the geometry; its NDVI is valid only at pixels that the
    quality band of that scene flags clear, and lies between -1 and
    1. *)
Theorem loaded_ndvi_is_cloud_free_and_within_unit_range
  (catalogue : list RawScene) (g : Geometry) (s : NdviScene)
  (Hin : In s (loadLandsat5 catalogue g)
         \/ In s (loadLandsat7 catalogue g)
         \/ In s (loadLandsat8 catalogue g)) :
  exists r,
    In r catalogue
    /\ intersects (footprint r) g = true
    /\ acquired (bands s) = acquired r
    /\ forall p v, NDVI s p = Some v ->
                   clearAt (pixel_qa r) p = true /\ -1 <= v <= 1.
Proof.
  destruct Hin as [H|[H|H]];
    [apply loadLandsat5_In in H | apply loadLandsat7_In in H
     | apply loadLandsat8_In in H];
    destruct H as (r & Hr & -> & _ & Hb); exists r;
    (split; [exact Hr|]); (split; [exact Hb|]);
    (split; [reflexivity|]); intros p v Hv; split.
  - exact (proj1 (ndvi_of_masked_scene_clear r p v) Hv).
  - exact (normalizedDifference_within _ _ p Hv).
  - exact (proj1 (ndvi_of_masked_scene_clear r p v) Hv).
  - exact (normalizedDifference_within _ _ p Hv).
  - exact (proj2 (ndvi_of_masked_scene_clear r p v) Hv).
  - exact (normalizedDifference_within _ _ p Hv).
Qed.

(* ===================================================================== *)
(** ** Loaders and the compositing loop *)
(* ===================================================================== *)

Lemma year_window_upper (t : Date) (y hi : Z) :
  (y <= hi)%Z ->
  date_ltb t (fromYMD y 12 31) = true ->
  date_ltb t (fromYMD hi 12 31) = true.
Proof.
  intros Hy H. destruct (Z.eq_dec y hi) as [<-|Hne]; [exact H|].
  apply date_ltb_year in H. simpl in H.
  unfold date_ltb. simpl.
  replace (dyear t <? hi)%Z with true; [reflexivity|].
  symmetry. apply Z.ltb_lt. lia.
Qed.

Lemma year_window_lower (t : Date) (lo y : Z) :
  (lo <= y)%Z ->
  date_leb (fromYMD y 1 1) t = true ->
  date_leb (fromYMD lo 1 1) t = true.
Proof.
  intros Hy H. destruct (Z.eq_dec lo y) as [->|Hne]; [exact H|].
  apply date_leb_year in H. simpl in H.
  unfold date_leb, date_ltb. simpl.
  replace (dyear t <? lo)%Z with false
    by (symmetry; apply Z.ltb_ge; lia).
  replace (dyear t =? lo)%Z with false
    by (symmetry; apply Z.eqb_neq; lia).
  reflexivity.
Qed.

Lemma filter_map_commute (A B : Type) (f : B -> bool) (g : A -> B)
  (l : list A) :
  filter f (map g l) = map g (filter (fun x => f (g x)) l).
Proof.
  induction l as [|a l IH]; simpl; [reflexivity|].
  rewrite IH. destruct (f (g a)); reflexivity.
Qed.

Lemma filter_filter_absorb (A : Type) (f w b : A -> bool) (l : list A) :
  (forall x, f x = true -> w x = true) ->
  filter f (filter b (filter w l)) = filter f (filter b l).
Proof.
  intros H. induction l as [|a l IH]; simpl; [reflexivity|].
  destruct (w a) eqn:Ew; simpl.
  - destruct (b a); simpl; rewrite IH; reflexivity.
  - rewrite IH. destruct (b a); simpl; [|reflexivity].
    destruct (f a) eqn:Ef; [|reflexivity].
    apply H in Ef. congruence.
Qed.

Lemma filter_nothing (A : Type) (f : A -> bool) (l : list A) :
  (forall x, In x l -> f x = false) -> filter f l = [].
Proof.
  induction l as [|a l IH]; simpl; intros H; [reflexivity|].
  rewrite (H a (or_introl Logic.eq_refl)). apply IH.
  intros x Hx. apply H. right. exact Hx.
Qed.

Section Loader.

(** A loader: a date window on whole years, the footprint filter, a
    masking step and an NDVI step that keep the acquisition time. *)
Variables lo hi : Z.
Variable cloudMask : RawScene -> RawScene.
Variable addNdvi : RawScene -> NdviScene.
Hypothesis keeps_time :
  forall r, acquired (bands (addNdvi (cloudMask r))) = acquired r.

Variable catalogue : list RawScene.
Variable g : Geometry.

Let loaded : list Scene :=
  map selectNdvi
    (map addNdvi
       (map cloudMask
          (filterBounds
             (filterDateRaw catalogue (fromYMD lo 1 1) (fromYMD hi 12 31))
             g))).

Let unwindowed : list Scene :=
  map selectNdvi (map addNdvi (map cloudMask (filterBounds catalogue g))).

Lemma loader_time_start (r : RawScene) :
  time_start (selectNdvi (addNdvi (cloudMask r))) = acquired r.
Proof. unfold selectNdvi. simpl. apply keeps_time. Qed.

Lemma loader_window_inside (y : Z) :
  (lo <= y <= hi)%Z ->
  filterDate loaded (fromYMD y 1 1) (fromYMD y 12 31)
  = filterDate unwindowed (fromYMD y 1 1) (fromYMD y 12 31).
Proof.
  intros Hy. unfold loaded, unwindowed, filterDate.
  rewrite !map_map, !filter_map_commute. f_equal.
  unfold filterBounds, filterDateRaw.
  apply filter_filter_absorb. intros r H.
  rewrite loader_time_start in H.
  apply andb_true_iff in H. destruct H as [H1 H2].
  apply andb_true_iff. split.
  - apply (year_window_lower _ (proj1 Hy) H1).
  - apply (year_window_upper _ (proj2 Hy) H2).
Qed.

Lemma loader_window_outside (y : Z) :
  (y < lo \/ hi < y)%Z ->
  filterDate loaded (fromYMD y 1 1) (fromYMD y 12 31) = [].
Proof.
  intros Hy. apply filter_nothing. intros s Hs.
  unfold loaded in Hs. rewrite !map_map in Hs.
  apply in_map_iff in Hs. destruct Hs as (r & <- & Hr).
  rewrite loader_time_start.
  unfold filterBounds, filterDateRaw in Hr.
  apply filter_In in Hr. destruct Hr as [Hr _].
  apply filter_In in Hr. destruct Hr as [_ Hw].
  apply andb_true_iff in Hw. destruct Hw as [W1 W2].
  apply date_leb_year in W1. apply date_ltb_year in W2. simpl in *.
  destruct (date_leb (fromYMD y 1 1) (acquired r)) eqn:E1; [|reflexivity].
  destruct (date_ltb (acquired r) (fromYMD y 12 31)) eqn:E2;
    [|reflexivity].
  apply date_leb_year in E1. apply date_ltb_year in E2. simpl in *. lia.
Qed.

Lemma loader_composite_inside (aoi : Geometry) (y : Z) :
  (lo <= y <= hi)%Z ->
  annualComposite loaded aoi y = annualComposite unwindowed aoi y.
Proof.
  intros Hy. unfold annualComposite.
  rewrite (loader_window_inside Hy). reflexivity.
Qed.

Lemma loader_composite_outside (aoi : Geometry) (y : Z) :
  (y < lo \/ hi < y)%Z ->
  allInvalid (px (annualComposite loaded aoi y)).
Proof.
  intros Hy. unfold annualComposite.
  rewrite (loader_window_outside Hy). intros p. reflexivity.
Qed.

End Loader.

(** X4.  For every year of a sensor's compositing range (1984-2011 for
    Landsat 5, 1999-2020 for Landsat 7, 2013-2020 for Landsat 8) the
    date window of the loader hides no scene from the compositor: the
    composite of the year is the one obtained from the whole catalogue,
    masked and given its NDVI without any date window. *)
Theorem loader_window_leaves_composites_unchanged
  (catalogue : list RawScene) (g aoi : Geometry) (y : Z) :
  ((1984 <= y <= 2011)%Z ->
   annualComposite (map selectNdvi (loadLandsat5 catalogue g)) aoi y
   = annualComposite
       (map selectNdvi
          (map calculateL5L7Ndvi
             (map maskL457Clouds (filterBounds catalogue g)))) aoi y)
  /\ ((1999 <= y <= 2020)%Z ->
      annualComposite (map selectNdvi (loadLandsat7 catalogue g)) aoi y
      = annualComposite
          (map selectNdvi
             (map calculateL5L7Ndvi
                (map maskL457Clouds (filterBounds catalogue g)))) aoi y)
  /\ ((2013 <= y <= 2020)%Z ->
      annualComposite (map selectNdvi (loadLandsat8 catalogue g)) aoi y
      = annualComposite
          (map selectNdvi
             (map calculateL8Ndvi
                (map maskL8Clouds (filterBounds catalogue g)))) aoi y).
Proof.
  repeat split; intros Hy.
  - exact (@loader_composite_inside 1984 2011 maskL457Clouds
             calculateL5L7Ndvi (fun _ => Logic.eq_refl) catalogue g aoi y Hy).
  - exact (@loader_composite_inside 1999 2020 maskL457Clouds
             calculateL5L7Ndvi (fun _ => Logic.eq_refl) catalogue g aoi y Hy).
  - exact (@loader_composite_inside 2013 2020 maskL8Clouds
             calculateL8Ndvi (fun _ => Logic.eq_refl) catalogue g aoi y Hy).
Qed.

(** X5.  A year outside the date window of a loader has no scene in the
    loaded collection, whatever the catalogue holds: its composite is
    the sentinel, masked everywhere. *)
Theorem composite_outside_loader_window_is_masked
  (catalogue : list RawScene) (g aoi : Geometry) (y : Z) :
  ((y < 1984 \/ 2011 < y)%Z ->
   allInvalid
     (px (annualComposite (map selectNdvi (loadLandsat5 catalogue g))
            aoi y)))
  /\ ((y < 1999 \/ 2020 < y)%Z ->
      allInvalid
        (px (annualComposite (map selectNdvi (loadLandsat7 catalogue g))
               aoi y)))
  /\ ((y < 2013 \/ 2020 < y)%Z ->
      allInvalid
        (px (annualComposite (map selectNdvi (loadLandsat8 catalogue g))
               aoi y))).
Proof.
  repeat split; intros Hy.
  - exact (@loader_composite_outside 1984 2011 maskL457Clouds
             calculateL5L7Ndvi (fun _ => Logic.eq_refl) catalogue g aoi y Hy).
  - exact (@loader_composite_outside 1999 2020 maskL457Clouds
             calculateL5L7Ndvi (fun _ => Logic.eq_refl) catalogue g aoi y Hy).
  - exact (@loader_composite_outside 2013 2020 maskL8Clouds
             calculateL8Ndvi (fun _ => Logic.eq_refl) catalogue g aoi y Hy).
Qed.


Lemma yearsFrom_nth_error (k : nat) :
  forall (y : Z) (i : nat),
    (i < k)%nat -> nth_error (yearsFrom y k) i = Some (y + Z.of_nat i)%Z.
Proof.
  induction k as [|k IH]; intros y i Hi; [lia|].
  destruct i as [|i]; simpl.
  - f_equal. lia.
  - rewrite IH by lia. f_equal. lia.
Qed.


(* ===================================================================== *)
(** ** The median stays within the observations *)
(* ===================================================================== *)

Lemma insertQ_In (x z : Q) (l : list Q) :
  In z (insertQ x l) <-> z = x \/ In z l.
Proof.
  induction l as [|y l IH]; simpl.
  - intuition congruence.
  - destruct (Qle_bool x y); simpl; rewrite ?IH; intuition congruence.
Qed.

Lemma insertQ_length (x : Q) (l : list Q) :
  length (insertQ x l) = S (length l).
Proof.
  induction l as [|y l IH]; simpl; [reflexivity|].
  destruct (Qle_bool x y); simpl; [reflexivity | rewrite IH; reflexivity].
Qed.

Lemma sortQ_In (z : Q) (l : list Q) : In z (sortQ l) <-> In z l.
Proof.
  induction l as [|x l IH]; simpl; [tauto|].
  rewrite insertQ_In, IH. intuition congruence.
Qed.

Lemma sortQ_length (l : list Q) : length (sortQ l) = length l.
Proof.
  induction l as [|x l IH]; simpl; [reflexivity|].
  rewrite insertQ_length, IH. reflexivity.
Qed.

Lemma mean_within (lo hi a b : Q) :
  lo <= a <= hi -> lo <= b <= hi -> lo <= (a + b) / 2 <= hi.
Proof.
  intros [Ha1 Ha2] [Hb1 Hb2]. unfold Qdiv.
  change (/ 2) with (1 # 2). split; lra.
Qed.

(** The median of a non-empty list lies within any bounds of its
    elements. *)
Lemma medianQ_within (lo hi : Q) (l : list Q) :
  l <> [] ->
  (forall v, In v l -> lo <= v <= hi) ->
  lo <= medianQ l <= hi.
Proof.
  intros Hne Hall. unfold medianQ.
  assert (Hlen : (0 < length (sortQ l))%nat).
  { rewrite sortQ_length. destruct l; [congruence | simpl; lia]. }
  assert (Hnth : forall i, (i < length (sortQ l))%nat ->
                           lo <= nth i (sortQ l) 0 <= hi).
  { intros i Hi. apply Hall. apply sortQ_In. apply nth_In. exact Hi. }
  set (n := length (sortQ l)) in *.
  assert (Hhalf : (n / 2 < n)%nat) by (apply Nat.div_lt; lia).
  destruct (Nat.even n) eqn:E.
  - apply mean_within; apply Hnth; lia.
  - apply Hnth. exact Hhalf.
Qed.

Lemma validValues_In (bs : list Band) (p : Pixel) (v : Q) :
  In v (validValues bs p) -> exists b, In b bs /\ b p = Some v.
Proof.
  induction bs as [|b bs IH]; simpl; [contradiction|].
  destruct (b p) as [x|] eqn:E.
  - intros [<-|H].
    + exists b. auto.
    + destruct (IH H) as (c & Hc & Hv). exists c. auto.
  - intros H. destruct (IH H) as (c & Hc & Hv). exists c. auto.
Qed.

Lemma median_within (lo hi : Q) (bs : list Band) :
  (forall b, In b bs -> bandWithin lo hi b) ->
  bandWithin lo hi (median bs).
Proof.
  intros H p v. unfold median, reduce.
  destruct (validValues bs p) as [|x vs] eqn:E; [discriminate|].
  intros Hv. inversion Hv; subst. apply medianQ_within; [discriminate|].
  intros w Hw. rewrite <- E in Hw.
  destruct (validValues_In _ _ _ Hw) as (b & Hb & Hbw).
  exact (H b Hb p w Hbw).
Qed.

Lemma clip_within (lo hi : Q) (b : Band) (g : Geometry) :
  bandWithin lo hi b -> bandWithin lo hi (clip b g).
Proof.
  intros H p v. unfold clip. destruct (inside g p); [apply H | discriminate].
Qed.

Lemma annualComposite_within (lo hi : Q) (collection : list Scene)
  (aoi : Geometry) (y : Z) :
  (forall s, In s collection -> bandWithin lo hi (ndvi s)) ->
  bandWithin lo hi (px (annualComposite collection aoi y)).
Proof.
  intros H. unfold annualComposite.
  destruct (0 <? length _)%nat; simpl.
  - apply clip_within. apply median_within. intros b Hb.
    apply in_map_iff in Hb. destruct Hb as (s & <- & Hs).
    apply H. unfold filterDate in Hs. apply filter_In in Hs. tauto.
  - intros p v. discriminate.
Qed.

Lemma createAnnualMedianComposite_within (lo hi : Q)
  (collection : list Scene) (s e : Z) (aoi : Geometry) (i : Image) :
  (forall x, In x collection -> bandWithin lo hi (ndvi x)) ->
  In i (createAnnualMedianComposite collection s e aoi) ->
  bandWithin lo hi (px i).
Proof.
  intros H Hi. rewrite (createAnnualMedianComposite_In _ _ _ _ _ Hi).
  apply annualComposite_within. exact H.
Qed.

(** X7.  When every NDVI value of every scene lies between [lo] and
    [hi], so does every value of every annual composite of each sensor,
    of the baseline composite and of the per-year composites across
    sensors: taking medians never leaves the range of the
    observations. *)
Theorem composites_stay_within_the_observed_range
  (lo hi : Q) (landsat5 landsat7 landsat8 : list Scene) (aoi : Geometry)
  (Hrange : forall s, In s (landsat5 ++ landsat7 ++ landsat8) ->
                      bandWithin lo hi (ndvi s)) :
  (forall i,
      In i (annualL5Composites landsat5 aoi
            ++ annualL7Composites landsat7 aoi
            ++ annualL8Composites landsat8 aoi) ->
      bandWithin lo hi (px i))
  /\ bandWithin lo hi
       (baselineNdviComposite (annualL5Composites landsat5 aoi)
          baselineStartYear baselineEndYear)
  /\ (forall u, In u (scriptUnique landsat5 landsat7 landsat8 aoi) ->
                bandWithin lo hi (px u)).
Proof.
  assert (Hsensor : forall i,
             In i (annualL5Composites landsat5 aoi
                   ++ annualL7Composites landsat7 aoi
                   ++ annualL8Composites landsat8 aoi) ->
             bandWithin lo hi (px i)).
  { intros i Hi. rewrite !in_app_iff in Hi.
    unfold annualL5Composites, annualL7Composites, annualL8Composites in Hi.
    destruct Hi as [Hi|[Hi|Hi]];
      (eapply createAnnualMedianComposite_within; [|exact Hi]);
      intros x Hx; apply Hrange; rewrite !in_app_iff; auto. }
  split; [exact Hsensor|]. split.
  - intros p v. rewrite baselineNdviComposite_median.
    apply median_within. intros b Hb.
    apply in_map_iff in Hb. destruct Hb as (i & <- & Hi).
    apply baselineAnnualNdvi_In in Hi. apply Hsensor.
    apply in_or_app. left. tauto.
  - intros u Hu. unfold scriptUnique in Hu.
    rewrite (uniqueAnnualNdviComposites_In _ _ Hu). cbn [px].
    apply median_within. intros b Hb.
    apply in_map_iff in Hb. destruct Hb as (i & <- & Hi).
    apply filter_In in Hi. destruct Hi as [Hi _].
    unfold scriptAllAnnual, allAnnualNdviComposites in Hi.
    apply (proj1 (sortByYear_In _ _)) in Hi. apply Hsensor. exact Hi.
Qed.

(* ===================================================================== *)
(** ** Outside the area of interest *)
(* ===================================================================== *)

Lemma annualComposite_outside (collection : list Scene) (aoi : Geometry)
  (y : Z) (p : Pixel) :
  inside aoi p = false -> px (annualComposite collection aoi y) p = None.
Proof.
  intros H. unfold annualComposite.
  destruct (0 <? length _)%nat; simpl; [|reflexivity].
  unfold clip. rewrite H. reflexivity.
Qed.

Lemma sensor_composite_outside (collection : list Scene) (s e : Z)
  (aoi : Geometry) (i : Image) (p : Pixel) :
  inside aoi p = false ->
  In i (createAnnualMedianComposite collection s e aoi) ->
  px i p = None.
Proof.
  intros H Hi. rewrite (createAnnualMedianComposite_In _ _ _ _ _ Hi).
  apply annualComposite_outside. exact H.
Qed.

Lemma adjacentPairs_In (l : list Image) (r : Image) :
  In r (adjacentPairs l) ->
  exists a b, In a l /\ In b l /\ r = persistentDeforestation a b.
Proof.
  intros H. apply In_nth_error in H. destruct H as [i Hi].
  apply adjacentPairs_nth_error in Hi.
  destruct Hi as (a & b & Ha & Hb & ->).
  exists a, b. repeat split; try reflexivity;
    eapply nth_error_In; eassumption.
Qed.

(** X8.  At a cell outside the area of interest the forest mask, every
    candidate raster, every confirmed raster and the year-of-deforestation
    image of the script are masked, whatever the scenes hold there. *)
Theorem nothing_is_detected_outside_the_area_of_interest
  (pixelArea : Pixel -> Q) (landsat5 landsat7 landsat8 : list Scene)
  (aoi : Geometry) (p : Pixel) (Hout : inside aoi p = false) :
  let candidates := deforestationList landsat5 landsat7 landsat8 aoi in
  scriptForestMask landsat5 aoi p = None
  /\ (forall c, In c candidates -> px c p = None)
  /\ exists refined,
       refinedDeforestationList candidates = Some refined
       /\ (forall r, In r refined -> px r p = None)
       /\ yearOfDeforestation
            (refinedDeforestationWithArea pixelArea refined aoi) p = None.
Proof.
  intros candidates.
  assert (Hcand : forall c, In c candidates -> px c p = None).
  { intros c Hc. unfold candidates, deforestationList, yearlyDeforestation
      in Hc.
    apply in_map_iff in Hc. destruct Hc as (u & <- & Hu).
    apply filter_In in Hu. destruct Hu as [Hu _].
    apply detectDeforestation_invalid_composite.
    unfold scriptUnique in Hu.
    rewrite (uniqueAnnualNdviComposites_In _ _ Hu). cbn [px].
    apply median_allInvalid. apply Forall_map. apply Forall_forall.
    intros i Hi. apply filter_In in Hi. destruct Hi as [Hi _].
    unfold scriptAllAnnual, allAnnualNdviComposites in Hi.
    apply (proj1 (sortByYear_In _ _)) in Hi.
    rewrite !in_app_iff in Hi.
    destruct Hi as [Hi|[Hi|Hi]];
      exact (sensor_composite_outside _ _ _ _ _ _ Hout Hi). }
  assert (Href : forall r, In r (adjacentPairs candidates) ->
                           px r p = None).
  { intros r Hr. apply adjacentPairs_In in Hr.
    destruct Hr as (a & b & Ha & _ & ->).
    apply persistentDeforestation_invalid. left.
    unfold validTrue. rewrite (Hcand a Ha). reflexivity. }
  split; [|split; [exact Hcand|]].
  - unfold scriptForestMask, initialForestMask, selfMask, gt, lift2.
    rewrite baselineNdviComposite_median.
    rewrite median_allInvalid; [reflexivity|].
    apply Forall_map. apply Forall_forall. intros i Hi.
    apply baselineAnnualNdvi_In in Hi. destruct Hi as [Hi _].
    exact (sensor_composite_outside _ _ _ _ _ _ Hout Hi).
  - exists (adjacentPairs candidates).
    split; [apply refinedDeforestationList_total|].
    split; [exact Href|].
    apply yearOfDeforestation_never_confirmed. intros ai Hai.
    unfold refinedDeforestationWithArea in Hai.
    apply in_map_iff in Hai. destruct Hai as (r & <- & Hr). simpl.
    unfold validTrue. rewrite (Href r Hr). reflexivity.
Qed.

(* ===================================================================== *)
(** ** Year tags of the candidates *)
(* ===================================================================== *)

Lemma insertZ_sorted (a : Z) (l : list Z) :
  StronglySorted Z.lt l -> ~ In a l ->
  StronglySorted Z.lt (insertZ a l).
Proof.
  induction 1 as [|b l Hs IH Hall]; simpl; intros Hn.
  - constructor; constructor.
  - destruct (Z.leb_spec a b) as [Hle|Hgt].
    + assert (Hne : a <> b)
        by (intros ->; apply Hn; left; reflexivity).
      assert (Hlt : (a < b)%Z) by lia.
      constructor; [constructor; assumption|].
      constructor; [exact Hlt|].
      eapply Forall_impl; [|exact Hall]. intros; lia.
    + constructor; [apply IH; intros Hi; apply Hn; right; exact Hi|].
      apply Forall_forall. intros x Hx. apply insertZ_In in Hx.
      destruct Hx as [->|Hx]; [lia|].
      rewrite Forall_forall in Hall. apply Hall. exact Hx.
Qed.

Lemma sortZ_sorted (l : list Z) :
  NoDup l -> StronglySorted Z.lt (sortZ l).
Proof.
  induction 1 as [|a l Hn Hd IH]; simpl; [constructor|].
  apply insertZ_sorted; [exact IH | rewrite sortZ_In; exact Hn].
Qed.

Lemma filter_sorted (f : Z -> bool) (l : list Z) :
  StronglySorted Z.lt l -> StronglySorted Z.lt (filter f l).
Proof.
  induction 1 as [|a l Hs IH Hall]; simpl; [constructor|].
  destruct (f a); [|exact IH].
  constructor; [exact IH|].
  apply Forall_forall. intros x Hx. apply filter_In in Hx.
  rewrite Forall_forall in Hall. apply Hall. tauto.
Qed.

Lemma uniqueAnnualNdviComposites_years (allAnnual : list Image) :
  map year (uniqueAnnualNdviComposites allAnnual) = distinctYears allAnnual.
Proof.
  unfold uniqueAnnualNdviComposites. rewrite map_map. simpl.
  apply map_id.
Qed.

Lemma yearlyDeforestation_years (unique : list Image) (be : Z)
  (m : Band) (t : Q) :
  map year (yearlyDeforestation unique be m t)
  = filter (fun y => (be <? y)%Z) (map year unique).
Proof.
  unfold yearlyDeforestation, analysisComposites.
  rewrite map_map. simpl.
  induction unique as [|u l IH]; simpl; [reflexivity|].
  destruct (be <? year u)%Z; simpl; rewrite IH; reflexivity.
Qed.

(** X9.  The candidate rasters come in strictly increasing order of year
    tag, one per year that is later than the end of the baseline and is
    carried by some composite; no year is repeated and no baseline year
    is analysed. *)
Theorem candidate_years_strictly_increase
  (allAnnual : list Image) (baselineEnd : Z) (forest : Band)
  (thresh : Q) :
  let candidates :=
    yearlyDeforestation (uniqueAnnualNdviComposites allAnnual) baselineEnd
      forest thresh in
  StronglySorted Z.lt (map year candidates)
  /\ forall y, In y (map year candidates)
               <-> (baselineEnd < y)%Z /\ In y (map year allAnnual).
Proof.
  intros candidates. unfold candidates.
  rewrite yearlyDeforestation_years, uniqueAnnualNdviComposites_years.
  split.
  - apply filter_sorted. apply sortZ_sorted. apply distinct_NoDup.
  - intros y. rewrite filter_In, distinctYears_In, Z.ltb_lt. tauto.
Qed.

(* ===================================================================== *)
(** ** The years the script analyses *)
(* ===================================================================== *)

Lemma insertByYear_keys (i : Image) (l : list Image) :
  map year (insertByYear i l) = insertKey (year i) (map year l).
Proof.
  induction l as [|j l IH]; simpl; [reflexivity|].
  destruct (year j <=? year i)%Z; simpl; [rewrite IH|]; reflexivity.
Qed.

Lemma sortByYear_keys (l : list Image) :
  map year (sortByYear l)
  = fold_left (fun acc y => insertKey y acc) (map year l) [].
Proof.
  unfold sortByYear.
  change (@nil Z) with (map year []).
  generalize (@nil Image) as acc.
  induction l as [|i l IH]; intros acc; simpl; [reflexivity|].
  rewrite IH, insertByYear_keys. reflexivity.
Qed.

Lemma createAnnualMedianComposite_years (collection : list Scene)
  (s e : Z) (aoi : Geometry) :
  map year (createAnnualMedianComposite collection s e aoi)
  = yearsFrom s (Z.to_nat (e - s + 1)).
Proof.
  rewrite createAnnualMedianComposite_map, map_map.
  rewrite (map_ext _ (fun y => y)); [apply map_id|].
  intros y. apply annualComposite_year.
Qed.

Lemma adjacentPairs_years (l : list Image) :
  map year (adjacentPairs l) = removelast (map year l).
Proof.
  induction l as [|a [|b rest] IH]; try reflexivity.
  change (adjacentPairs (a :: b :: rest))
    with (persistentDeforestation a b :: adjacentPairs (b :: rest)).
  change (map year (persistentDeforestation a b
                    :: adjacentPairs (b :: rest)))
    with (year a :: map year (adjacentPairs (b :: rest))).
  rewrite IH. reflexivity.
Qed.

Lemma deforestationList_years
  (landsat5 landsat7 landsat8 : list Scene) (aoi : Geometry) :
  map year (deforestationList landsat5 landsat7 landsat8 aoi)
  = yearsFrom 1991 30.
Proof.
  unfold deforestationList.
  rewrite yearlyDeforestation_years. unfold scriptUnique.
  rewrite uniqueAnnualNdviComposites_years.
  unfold distinctYears, scriptAllAnnual, allAnnualNdviComposites.
  rewrite sortByYear_keys, !map_app.
  unfold annualL5Composites, annualL7Composites, annualL8Composites.
  rewrite !createAnnualMedianComposite_years.
  vm_compute. reflexivity.
Qed.

Lemma script_candidate_year (landsat5 landsat7 landsat8 : list Scene)
  (aoi : Geometry) (i : nat) (c : Image) :
  nth_error (deforestationList landsat5 landsat7 landsat8 aoi) i = Some c ->
  year c = (1991 + Z.of_nat i)%Z /\ (i < 30)%nat.
Proof.
  intros H.
  assert (Hi : (i < 30)%nat).
  { assert (L : (i < length (deforestationList landsat5 landsat7
                              landsat8 aoi))%nat)
      by (apply nth_error_Some; congruence).
    rewrite <- (length_map year), deforestationList_years in L.
    exact L. }
  split; [|exact Hi].
  assert (E : nth_error (map year (deforestationList landsat5 landsat7
                                     landsat8 aoi)) i = Some (year c))
    by (rewrite nth_error_map, H; reflexivity).
  rewrite deforestationList_years in E.
  rewrite (yearsFrom_nth_error _ Hi) in E. congruence.
Qed.

(** X10.  Whatever scenes the three sensors provide, the script analyses
    the thirty years 1991 to 2020: its candidate list holds exactly one
    raster per year, in that order, so two neighbouring candidates are
    always exactly one year apart. *)
Theorem script_candidates_cover_1991_to_2020
  (landsat5 landsat7 landsat8 : list Scene) (aoi : Geometry) :
  let candidates := deforestationList landsat5 landsat7 landsat8 aoi in
  map year candidates = yearsFrom 1991 30
  /\ length candidates = 30%nat
  /\ forall i a b,
       nth_error candidates i = Some a ->
       nth_error candidates (S i) = Some b ->
       year b = (year a + 1)%Z.
Proof.
  intros candidates. split; [apply deforestationList_years|]. split.
  - unfold candidates.
    rewrite <- (length_map year), deforestationList_years. reflexivity.
  - intros i a b Ha Hb.
    apply script_candidate_year in Ha. apply script_candidate_year in Hb.
    lia.
Qed.

(** X11.  In the script the gap branch of the persistence loop is never
    taken: the loop returns 29 rasters tagged 1991 to 2019, and the
    raster tagged [Y] is valid-true exactly where the candidates of [Y]
    and of [Y + 1] both are. *)
Theorem script_confirms_each_pair_of_consecutive_years
  (landsat5 landsat7 landsat8 : list Scene) (aoi : Geometry) :
  let candidates := deforestationList landsat5 landsat7 landsat8 aoi in
  exists refined,
    refinedDeforestationList candidates = Some refined
    /\ map year refined = yearsFrom 1991 29
    /\ forall i r,
         nth_error refined i = Some r ->
         exists a b,
           nth_error candidates i = Some a
           /\ nth_error candidates (S i) = Some b
           /\ year a = year r /\ year b = (year r + 1)%Z
           /\ forall p, validTrue (px r) p
                        = validTrue (px a) p && validTrue (px b) p.
Proof.
  intros candidates. exists (adjacentPairs candidates).
  split; [apply refinedDeforestationList_total|]. split.
  - rewrite adjacentPairs_years. unfold candidates.
    rewrite deforestationList_years. reflexivity.
  - intros i r Hr. apply adjacentPairs_nth_error in Hr.
    destruct Hr as (a & b & Ha & Hb & ->). exists a, b.
    assert (Hya := script_candidate_year _ _ _ _ _ Ha).
    assert (Hyb := script_candidate_year _ _ _ _ _ Hb).
    rewrite persistentDeforestation_year.
    repeat split; auto; [lia|].
    intros p. rewrite persistentDeforestation_validTrue.
    replace (year b - year a)%Z with 1%Z by lia. reflexivity.
Qed.

Lemma snoc_of_last (A : Type) (l : list A) (n : nat) (x : A) :
  length l = S n -> nth_error l n = Some x ->
  l = firstn n l ++ [x].
Proof.
  intros Hlen Hx. rewrite <- (firstn_skipn n l) at 1. f_equal.
  rewrite (skipn_nth_error _ _ Hx). f_equal.
  apply skipn_all2. lia.
Qed.

Lemma nonzero_inject_Z (y : Z) : y <> 0%Z -> nonzero (inject_Z y) = true.
Proof.
  intros H. apply nonzero_true_iff. unfold Qeq, inject_Z. simpl. lia.
Qed.

Lemma one_times_inject_Z (y : Z) : 1 * inject_Z y = inject_Z y.
Proof. unfold Qmult, inject_Z. simpl. destruct y; reflexivity. Qed.

(** The self-masked year image of a confirmed raster with a non-zero
    year tag: the year where the raster is valid-true, masked elsewhere. *)
Lemma yearImage_of_confirmed (a b : Image) (area : Q) (p : Pixel) :
  year a <> 0%Z ->
  selfMask (yearImage (mkAreaImage (persistentDeforestation a b) area)) p
  = if validTrue (px (persistentDeforestation a b)) p
    then Some (inject_Z (year a))
    else None.
Proof.
  intros Hy.
  unfold selfMask, yearImage, multiply, lift2, unmask, constant, validTrue.
  cbn [image]. rewrite persistentDeforestation_year.
  destruct (persistentDeforestation_onlyOnes a b p) as [E|E]; rewrite E.
  - replace (nonzero (0 * inject_Z (year a))) with false; [reflexivity|].
    symmetry. apply nonzero_false_iff. ring.
  - change (nonzero 1) with true. cbv iota.
    rewrite one_times_inject_Z, (nonzero_inject_Z Hy). reflexivity.
Qed.

(** X12.  In the script the year-of-deforestation image depends on the
    last pair of candidates only: it holds 2019 where the candidates of
    2019 and 2020 are both valid-true and is masked everywhere else,
    whatever was confirmed in the years 1991 to 2018. *)
Theorem script_yearOfDeforestation_shows_the_last_pair_only
  (pixelArea : Pixel -> Q) (landsat5 landsat7 landsat8 : list Scene)
  (aoi : Geometry) :
  let candidates := deforestationList landsat5 landsat7 landsat8 aoi in
  exists refined c2019 c2020,
    refinedDeforestationList candidates = Some refined
    /\ nth_error candidates 28 = Some c2019
    /\ nth_error candidates 29 = Some c2020
    /\ year c2019 = 2019%Z /\ year c2020 = 2020%Z
    /\ forall p,
         yearOfDeforestation
           (refinedDeforestationWithArea pixelArea refined aoi) p
         = if validTrue (px c2019) p && validTrue (px c2020) p
           then Some 2019
           else None.
Proof.
  intros candidates.
  assert (Hlen : length candidates = 30%nat).
  { unfold candidates.
    rewrite <- (length_map year), deforestationList_years. reflexivity. }
  destruct (@nth_error_in_range _ candidates 28) as [a Ha]; [lia|].
  destruct (@nth_error_in_range _ candidates 29) as [b Hb]; [lia|].
  destruct (script_candidate_year _ _ _ _ _ Ha) as [Hya _].
  destruct (script_candidate_year _ _ _ _ _ Hb) as [Hyb _].
  simpl in Hya, Hyb.
  exists (adjacentPairs candidates), a, b.
  split; [apply refinedDeforestationList_total|].
  repeat (split; [assumption|]).
  intros p.
  assert (Hlast : nth_error (adjacentPairs candidates) 28
                  = Some (persistentDeforestation a b)).
  { apply adjacentPairs_nth_error. exists a, b. auto. }
  assert (Hsnoc := @snoc_of_last _ (adjacentPairs candidates) 28 _
                     ltac:(rewrite adjacentPairs_length; lia) Hlast).
  rewrite Hsnoc. unfold refinedDeforestationWithArea.
  rewrite map_app. simpl map at 2.
  rewrite yearOfDeforestation_last.
  rewrite yearImage_of_confirmed by lia.
  rewrite persistentDeforestation_validTrue, Hya.
  replace (year b - 2019)%Z with 1%Z by lia. reflexivity.
Qed.

(* ===================================================================== *)
(** ** Areas *)
(* ===================================================================== *)

Lemma fold_right_Qplus_compat (A : Type) (f g : A -> Q) (l : list A) :
  (forall x, In x l -> f x == g x) ->
  fold_right Qplus 0 (map f l) == fold_right Qplus 0 (map g l).
Proof.
  induction l as [|a l IH]; intros H; simpl; [reflexivity|].
  rewrite IH by (intros x Hx; apply H; right; exact Hx).
  rewrite (H a (or_introl Logic.eq_refl)). reflexivity.
Qed.

Lemma fold_right_Qplus_le (A : Type) (f g : A -> Q) (l : list A) :
  (forall x, In x l -> f x <= g x) ->
  fold_right Qplus 0 (map f l) <= fold_right Qplus 0 (map g l).
Proof.
  induction l as [|a l IH]; intros H; simpl; [apply Qle_refl|].
  apply Qplus_le_compat.
  - apply H. left. reflexivity.
  - apply IH. intros x Hx. apply H. right. exact Hx.
Qed.

Lemma fold_right_Qplus_nonneg (A : Type) (f : A -> Q) (l : list A) :
  (forall x, 0 <= f x) -> 0 <= fold_right Qplus 0 (map f l).
Proof.
  intros H. induction l as [|a l IH]; simpl; [apply Qle_refl|].
  specialize (H a). lra.
Qed.

Lemma nativeUnitArea_onlyOnes (pixelArea : Pixel -> Q) (b : Band)
  (region : Geometry) :
  onlyOnes b ->
  nativeUnitArea pixelArea b region == coveredArea pixelArea b region.
Proof.
  intros H. unfold nativeUnitArea, coveredArea.
  apply fold_right_Qplus_compat. intros p _.
  unfold validTrue. destruct (H p) as [E|E]; rewrite E.
  - reflexivity.
  - change (nonzero 1) with true. cbv iota. ring.
Qed.

Lemma Qdiv_million_le (x y : Q) : x <= y -> x / 1000000 <= y / 1000000.
Proof.
  intros H. unfold Qdiv. change (/ 1000000) with (1 # 1000000). lra.
Qed.

(** X13.  For a raster holding 1 at its valid pixels (every confirmed
    raster does), the area attached by the quantifier is the ground area
    of the valid cells of the region, in square kilometres. *)
Theorem area_of_binary_raster_is_covered_ground_area
  (pixelArea : Pixel -> Q) (b : Band) (region : Geometry)
  (Hones : onlyOnes b) :
  calculateDeforestedArea pixelArea b region
  == coveredArea pixelArea b region / 1000000.
Proof.
  unfold calculateDeforestedArea.
  rewrite reduceRegionSum_multiply, (nativeUnitArea_onlyOnes _ _ Hones).
  reflexivity.
Qed.

(** X14.  With non-negative cell areas, the area of a raster holding 1
    at its valid pixels lies between zero and the ground area of the
    whole region, and reaches the latter when the raster is valid at
    every cell of the region. *)
Theorem area_of_binary_raster_is_bounded_by_region
  (pixelArea : Pixel -> Q) (b : Band) (region : Geometry)
  (Hones : onlyOnes b) (Hpos : forall p, 0 <= pixelArea p) :
  0 <= calculateDeforestedArea pixelArea b region
  /\ calculateDeforestedArea pixelArea b region
     <= regionArea pixelArea region / 1000000
  /\ ((forall p, In p region -> b p = Some 1) ->
      calculateDeforestedArea pixelArea b region
      == regionArea pixelArea region / 1000000).
Proof.
  assert (E : calculateDeforestedArea pixelArea b region
              == coveredArea pixelArea b region / 1000000).
  { unfold calculateDeforestedArea.
    rewrite reduceRegionSum_multiply, (nativeUnitArea_onlyOnes _ _ Hones).
    reflexivity. }
  rewrite E. split; [|split].
  - assert (N : 0 <= coveredArea pixelArea b region).
    { unfold coveredArea. apply fold_right_Qplus_nonneg. intros p.
      destruct (validTrue b p); [apply Hpos | apply Qle_refl]. }
    unfold Qdiv. change (/ 1000000) with (1 # 1000000). lra.
  - apply Qdiv_million_le. unfold coveredArea, regionArea.
    apply fold_right_Qplus_le. intros p _.
    destruct (validTrue b p); [apply Qle_refl | apply Hpos].
  - intros Hall. unfold Qdiv. apply Qmult_comp; [|reflexivity].
    unfold coveredArea, regionArea.
    apply fold_right_Qplus_compat. intros p Hp.
    unfold validTrue. rewrite (Hall p Hp). reflexivity.
Qed.


Lemma yearsList_refined (pixelArea : Pixel -> Q) (refined : list Image)
  (aoi : Geometry) :
  yearsList (refinedDeforestationWithArea pixelArea refined aoi)
  = map year refined.
Proof.
  unfold yearsList, refinedDeforestationWithArea. rewrite map_map.
  reflexivity.
Qed.


(** X16.  In the script the smallest and the largest year of the
    confirmed rasters are always retrieved, as 1991 and 2019, whatever
    the scenes hold: the year-of-deforestation layer is drawn with that
    range and the auto-stretch branch is not taken. *)
Theorem script_year_range_is_1991_to_2019
  (pixelArea : Pixel -> Q) (landsat5 landsat7 landsat8 : list Scene)
  (aoi : Geometry) :
  exists refined,
    refinedDeforestationList
      (deforestationList landsat5 landsat7 landsat8 aoi) = Some refined
    /\ let years :=
         yearsList (refinedDeforestationWithArea pixelArea refined aoi) in
       minYear years = Some 1991%Z
       /\ maxYear years = Some 2019%Z
       /\ yearRangeRetrieved years = true.
Proof.
  exists (adjacentPairs (deforestationList landsat5 landsat7 landsat8
                           aoi)).
  split; [apply refinedDeforestationList_total|].
  cbv zeta.
  rewrite yearsList_refined, adjacentPairs_years,
    deforestationList_years.
  repeat split.
Qed.

(* ===================================================================== *)
(** ** Further concrete runs *)
(* ===================================================================== *)

Lemma forestAtCentre_onlyOnes : onlyOnes forestAtCentre.
Proof.
  intros p. unfold forestAtCentre, onePixel.
  destruct (pixel_eqb p (2, 2)%nat); auto.
Qed.

Lemma clearScene1991_within :
  forall s, In s ([clearScene1991] ++ [] ++ []) ->
            bandWithin (-1) 1 (ndvi s).
Proof.
  intros s [<-|[]] p v H. inversion H; subst. split; discriminate.
Qed.

(** X2 on [rawScene1990] at a clear cell: NDVI (0.5 - 0.1) / (0.5 + 0.1). *)
Lemma ndvi_of_rawScene1990 :
  exists nir red,
    B4 rawScene1990 (1, 1)%nat = Some nir
    /\ B3 rawScene1990 (1, 1)%nat = Some red
    /\ 0 <= nir /\ 0 <= red
    /\ ((5 # 10) - (1 # 10)) / ((5 # 10) + (1 # 10)) = (nir - red) / (nir + red)
    /\ -1 <= ((5 # 10) - (1 # 10)) / ((5 # 10) + (1 # 10)) <= 1.
Proof.
  apply (proj1 (ndvi_is_normalized_difference_within_unit_range
                  rawScene1990 (1, 1)%nat
                  (((5 # 10) - (1 # 10)) / ((5 # 10) + (1 # 10))))).
  reflexivity.
Defined.

(** X3 on a catalogue holding [rawScene1990] only. *)
Lemma loaded_rawScene1990 :
  exists r,
    In r [rawScene1990]
    /\ intersects (footprint r) grid5x5 = true
    /\ acquired (bands (calculateL5L7Ndvi (maskL457Clouds rawScene1990)))
       = acquired r
    /\ forall p v,
         NDVI (calculateL5L7Ndvi (maskL457Clouds rawScene1990)) p = Some v ->
         clearAt (pixel_qa r) p = true /\ -1 <= v <= 1.
Proof.
  apply (@loaded_ndvi_is_cloud_free_and_within_unit_range
           [rawScene1990] grid5x5
           (calculateL5L7Ndvi (maskL457Clouds rawScene1990))).
  left. left. reflexivity.
Defined.

(** X4 on year 1990 of Landsat 5. *)
Lemma composite_1990_ignores_loader_window :
  annualComposite (map selectNdvi (loadLandsat5 [rawScene1990] grid5x5))
    grid5x5 1990
  = annualComposite
      (map selectNdvi
         (map calculateL5L7Ndvi
            (map maskL457Clouds (filterBounds [rawScene1990] grid5x5))))
      grid5x5 1990.
Proof.
  apply (proj1 (loader_window_leaves_composites_unchanged
                  [rawScene1990] grid5x5 grid5x5 1990)).
  lia.
Defined.

(** X5 on year 2012 of Landsat 5. *)
Lemma composite_2012_of_landsat5_is_masked :
  allInvalid
    (px (annualComposite
           (map selectNdvi (loadLandsat5 [rawScene1990] grid5x5))
           grid5x5 2012)).
Proof.
  apply (proj1 (composite_outside_loader_window_is_masked
                  [rawScene1990] grid5x5 grid5x5 2012)).
  right. lia.
Defined.

(** X7 on one clear scene of 1991 with NDVI 0.2. *)
Lemma composites_of_clearScene1991_within :
  bandWithin (-1) 1
    (baselineNdviComposite (annualL5Composites [clearScene1991] grid5x5)
       baselineStartYear baselineEndYear)
  /\ Forall (fun u => bandWithin (-1) 1 (px u))
       (scriptUnique [clearScene1991] [] [] grid5x5).
Proof.
  destruct (@composites_stay_within_the_observed_range
              (-1) 1 [clearScene1991] [] [] grid5x5
              clearScene1991_within) as (_ & Hb & Hu).
  split; [exact Hb | apply Forall_forall; exact Hu].
Defined.

(** X8 at cell (7, 7), outside the 5 x 5 grid. *)
Lemma forest_mask_outside_grid :
  scriptForestMask [clearScene1991] grid5x5 (7, 7)%nat = None.
Proof.
  exact (proj1 (@nothing_is_detected_outside_the_area_of_interest
                  (fun _ => 900) [clearScene1991] [] [] grid5x5
                  (7, 7)%nat Logic.eq_refl)).
Defined.

(** X13 on one confirmed cell of 900 square metres. *)
Lemma area_of_forestAtCentre :
  calculateDeforestedArea (fun _ => 900) forestAtCentre grid5x5
  == coveredArea (fun _ => 900) forestAtCentre grid5x5 / 1000000.
Proof.
  apply (@area_of_binary_raster_is_covered_ground_area
           (fun _ => 900) forestAtCentre grid5x5 forestAtCentre_onlyOnes).
Defined.

(** X14 on the same raster. *)
Lemma area_of_forestAtCentre_bounded :
  0 <= calculateDeforestedArea (fun _ => 900) forestAtCentre grid5x5
  /\ calculateDeforestedArea (fun _ => 900) forestAtCentre grid5x5
     <= regionArea (fun _ => 900) grid5x5 / 1000000.
Proof.
  destruct (@area_of_binary_raster_is_bounded_by_region
              (fun _ => 900) forestAtCentre grid5x5
              forestAtCentre_onlyOnes
              (fun _ => ltac:(discriminate))) as (H0 & H1 & _).
  split; assumption.
Defined.
